(** * POWERPOPS: the resource reservation store and its admin page

    A shallow embedding of [powerpops.py].  The two SQLite tables are finite
    maps from the integer primary key to the remaining columns; the methods of
    [ResourceReservationSystem] are programs in a state-and-exception monad
    over the database, the standard output and a script of pending failures
    of the SQLite library; the handlers of the admin page run in the same
    monad over the page, which adds the two widget columns whose buttons
    capture row values when they are drawn.

    Conventions of the model:
    - a Python [str] is the Rocq string of the bytes of its UTF-8 encoding,
      a lone surrogate being written as the three bytes that encoding would
      give it; so the length of the Rocq string is the number of bytes
      SQLite is handed;
    - Python [int] is [Z]; SQLite INTEGER is a 64-bit integer, and a Python
      [int] outside that range cannot be bound to a statement;
    - arguments have the types the schema gives them: names, descriptions,
      user names and dates are text, ids and the available flag are
      integers; an optional argument ([None] default) is an [option];
    - [commit] does not change the tables the connection sees; an exception
      leaves the tables as the statements executed so far made them;
    - SQLite's limit on the size of a whole row is not modelled; the
      properties about statements that write text take rows well below it
      ([Sql.fits]). *)

From stdpp Require Import base gmap list strings sorting.
From Stdlib Require Import ZArith String Ascii Lia.

Local Open Scope string_scope.
Local Open Scope Z_scope.

(** ** Python strings *)

Module Py.

(** The characters of a string: each is the one to four bytes that the
    first byte announces (fewer at the end of an ill-formed string). *)
Fixpoint chars (s : string) : list string :=
  match s with
  | EmptyString => []
  | String a r1 =>
      if (N_of_ascii a <? 192)%N then String a "" :: chars r1
      else
        match r1 with
        | EmptyString => [String a ""]
        | String b r2 =>
            if (N_of_ascii a <? 224)%N then String a (String b "") :: chars r2
            else
              match r2 with
              | EmptyString => [String a (String b "")]
              | String c r3 =>
                  if (N_of_ascii a <? 240)%N
                  then String a (String b (String c "")) :: chars r3
                  else
                    match r3 with
                    | EmptyString => [String a (String b (String c ""))]
                    | String e r4 =>
                        String a (String b (String c (String e ""))) :: chars r4
                    end
              end
        end
  end.

(** The code point of one character. *)
Definition code_point (ch : string) : N :=
  match ch with
  | String a EmptyString => N_of_ascii a
  | String a (String b EmptyString) =>
      (N_of_ascii a - 192) * 64 + (N_of_ascii b - 128)
  | String a (String b (String c EmptyString)) =>
      (N_of_ascii a - 224) * 4096 + (N_of_ascii b - 128) * 64
      + (N_of_ascii c - 128)
  | String a (String b (String c (String e EmptyString))) =>
      (N_of_ascii a - 240) * 262144 + (N_of_ascii b - 128) * 4096
      + (N_of_ascii c - 128) * 64 + (N_of_ascii e - 128)
  | _ => 0
  end%N.

(** [str.isspace] on one code point: the whitespace of CPython's Unicode
    table. *)
Definition isspace (cp : N) : bool :=
  ((9 <=? cp) && (cp <=? 13) || (28 <=? cp) && (cp <=? 32)
   || (cp =? 133) || (cp =? 160) || (cp =? 5760)
   || (8192 <=? cp) && (cp <=? 8202) || (cp =? 8232) || (cp =? 8233)
   || (cp =? 8239) || (cp =? 8287) || (cp =? 12288))%N.

(** A surrogate code point (U+D800..U+DFFF), which UTF-8 cannot encode. *)
Definition surrogate (cp : N) : bool := ((55296 <=? cp) && (cp <=? 57343))%N.

Fixpoint lstrip_chars (l : list string) : list string :=
  match l with
  | [] => []
  | c :: l' => if isspace (code_point c) then lstrip_chars l' else l
  end.

Definition rstrip_chars (l : list string) : list string :=
  rev (lstrip_chars (rev l)).

(** [s.strip()] *)
Definition strip (s : string) : string :=
  String.concat "" (rstrip_chars (lstrip_chars (chars s))).

(** Truth value of a string: [if s:] *)
Definition truthy (s : string) : bool :=
  match s with EmptyString => false | String _ _ => true end.

(** [sep.join(l)] *)
Fixpoint join (sep : string) (l : list string) : string :=
  match l with
  | [] => ""
  | [x] => x
  | x :: l' => x ++ sep ++ join sep l'
  end.

(** Every character of [s] is whitespace (the empty string included). *)
Definition blank (s : string) : bool :=
  forallb (λ c, isspace (code_point c)) (chars s).

(** [s] has no lone surrogate: it can be encoded as UTF-8. *)
Definition encodable (s : string) : bool :=
  forallb (λ c, negb (surrogate (code_point c))) (chars s).

(** The number of bytes of the UTF-8 encoding of [s]. *)
Definition utf8_length (s : string) : Z := Z.of_nat (String.length s).

End Py.

(** ** Exceptions and the monad of the methods *)

(** The subclasses of [sqlite3.Error] the model raises, with their message. *)
Inductive sqlite3_Error :=
  | OperationalError (msg : string)
  | IntegrityError (msg : string)
  | ProgrammingError (msg : string)
  | InterfaceError (msg : string)
  | DataError (msg : string).

(** [str(e)] *)
Definition str (e : sqlite3_Error) : string :=
  match e with
  | OperationalError m | IntegrityError m | ProgrammingError m
  | InterfaceError m | DataError m => m
  end.

(** The exceptions a method can raise: an [sqlite3.Error], or one of the two
    built-in exceptions raised while a Python value is handed to SQLite,
    neither of which is an [sqlite3.Error].  The message of
    [UnicodeEncodeError], which names the character and its position, is
    left out. *)
Inductive exception :=
  | Sqlite3Error (e : sqlite3_Error)
  | OverflowError (msg : string)
  | UnicodeEncodeError.
Coercion Sqlite3Error : sqlite3_Error >-> exception.

Inductive outcome (A : Type) :=
  | Returned (a : A)
  | Raised (e : exception).
Arguments Returned {A} a.
Arguments Raised {A} e.

(** A method run from state [s] returns or raises, and leaves a state. *)
Definition M (S A : Type) : Type := S → outcome A * S.

Section monad.
Context {S : Type}.

Definition ret {A} (a : A) : M S A := λ s, (Returned a, s).

Definition bind {A B} (m : M S A) (k : A → M S B) : M S B := λ s,
  match m s with
  | (Returned a, s') => k a s'
  | (Raised e, s') => (Raised e, s')
  end.

(** [try: body except sqlite3.Error as e: handler(e)]: another exception
    goes through. *)
Definition try_except {A} (body : M S A) (handler : sqlite3_Error → M S A)
  : M S A := λ s,
  match body s with
  | (Raised (Sqlite3Error e), s') => handler e s'
  | (o, s') => (o, s')
  end.

End monad.

Declare Scope py_scope.
Delimit Scope py_scope with py.
Notation "x <- m ;; k" := (bind m (λ x, k))
  (at level 100, m at next level, right associativity) : py_scope.
Notation "m ;; k" := (bind m (λ _, k))
  (at level 100, right associativity) : py_scope.
Local Open Scope py_scope.

(** ** The database *)

(** A row of [resources] without its [id]. *)
Record resource := Resource {
  res_name : string;
  res_description : string;
  res_available : Z
}.

(** A row of [reservations] without its [id]. *)
Record reservation := Reservation {
  rsv_resource_id : Z;
  rsv_user_name : string;
  rsv_date : string
}.

(** The two tables, keyed by their INTEGER PRIMARY KEY, and the counter that
    AUTOINCREMENT keeps for [reservations] (the largest id ever used). *)
Record database := Database {
  resources : gmap Z resource;
  reservations : gmap Z reservation;
  reservations_seq : Z
}.

Definition empty_db : database := Database ∅ ∅ 0.

#[global] Instance resource_eq_dec : EqDecision resource.
Proof. solve_decision. Defined.
#[global] Instance reservation_eq_dec : EqDecision reservation.
Proof. solve_decision. Defined.

(** What a method of the store runs against: the tables, the failures the
    SQLite library will report on the coming calls ([Some e]: the call raises
    [e] and changes nothing; [None], or no entry: the call goes through), and
    what has been printed. *)
Record world := World {
  db : database;
  pending_errors : list (option sqlite3_Error);
  stdout : list string
}.

(** A world in which the library reports no failure of its own. *)
Definition quiet (d : database) (out : list string) : world := World d [] out.

(** [print(s)] *)
Definition print (s : string) : M world unit := λ w,
  (Returned tt, World (db w) (pending_errors w) (stdout w ++ [s])).

(** A statement is a function of the tables that fails or gives a result and
    new tables.  A call into the library first consumes one entry of the
    failure script. *)
Definition statement (A : Type) : Type := database → exception + A * database.

Definition sqlite_call {A} (stmt : statement A) : M world A := λ w,
  match pending_errors w with
  | Some e :: rest => (Raised e, World (db w) rest (stdout w))
  | script =>
      match stmt (db w) with
      | inl e => (Raised e, World (db w) (tail script) (stdout w))
      | inr (a, d) => (Returned a, World d (tail script) (stdout w))
      end
  end.

(** [self.connection.commit()] *)
Definition commit : M world unit := sqlite_call (λ d, inr (tt, d)).

(** ** SQL statements *)

(** A value bound to a [?] placeholder. *)
Inductive sql_value :=
  | SqlInt (z : Z)
  | SqlText (s : string).

Module Sql.

(** *** Handing Python values to SQLite *)

(** The integers SQLite stores: 64 bits, signed. *)
Definition int64 (z : Z) : Prop :=
  -9223372036854775808 ≤ z ≤ 9223372036854775807.

#[global] Instance int64_dec z : Decision (int64 z).
Proof. unfold int64. apply _. Defined.

(** The largest C [int], beyond which the binding refuses a text, and
    SQLite's own limit on the bytes of one text (the default
    SQLITE_MAX_LENGTH). *)
Definition INT_MAX : Z := 2147483647.
Definition MAX_LENGTH : Z := 1000000000.

(** What binding one value raises, if anything: [OverflowError] for an
    integer outside 64 bits, [UnicodeEncodeError] for a text with a lone
    surrogate, [OverflowError] for a text of more than [INT_MAX] bytes, and
    an [sqlite3.Error] for a text SQLite finds too big (which subclass, and
    with which message, depends on the version of the binding; the model
    takes [DataError] with SQLite's own message). *)
Definition bind_param (v : sql_value) : option exception :=
  match v with
  | SqlInt z =>
      if decide (int64 z) then None
      else Some (OverflowError "Python int too large to convert to SQLite INTEGER")
  | SqlText s =>
      if negb (Py.encodable s) then
        Some UnicodeEncodeError
      else if decide (INT_MAX < Py.utf8_length s) then
        Some (OverflowError "string longer than INT_MAX bytes")
      else if decide (MAX_LENGTH < Py.utf8_length s) then
        Some (Sqlite3Error (DataError "string or blob too big"))
      else None
  end.

(** The parameters are bound in order; the first failure is raised. *)
Fixpoint bind_params (params : list sql_value) : option exception :=
  match params with
  | [] => None
  | v :: params' =>
      match bind_param v with
      | Some e => Some e
      | None => bind_params params'
      end
  end.

(** [cursor.execute(sql, params)]: the statement runs once its parameters
    are bound. *)
Definition bound {A} (params : list sql_value) (stmt : statement A)
  : statement A := λ d,
  match bind_params params with
  | Some e => inl e
  | None => stmt d
  end.

(** Text that can be bound and leaves the row it goes into well below
    SQLite's length limit: no lone surrogate, and at most [MAX_LENGTH] bytes
    in all with 64 to spare for the rest of the row. *)
Definition fits (texts : list string) : Prop :=
  Forall (λ s, Py.encodable s = true) texts
  ∧ foldr (λ s n, Py.utf8_length s + n) 64 texts ≤ MAX_LENGTH.

(** *** The statements *)

(** The largest key of a table: [SELECT MAX(id)], [None] for SQL NULL. *)
Definition max_key {A} (m : gmap Z A) : option Z :=
  foldr (λ k acc, Some (from_option (Z.max k) k acc)) None (map_to_list m).*1.

(** [SELECT id FROM t ORDER BY id] *)
Definition ordered_keys {A} (m : gmap Z A) : list Z :=
  merge_sort Z.le (map_to_list m).*1.

(** [SELECT MAX(id) FROM resources] *)
Definition select_max_id : statement (option Z) := λ d,
  inr (max_key (resources d), d).

(** [INSERT INTO resources (id, name, description) VALUES (?, ?, ?)]:
    [id] is the primary key, [available] takes its DEFAULT 1. *)
Definition insert_resource (id : Z) (name description : string)
  : statement unit := λ d,
  match resources d !! id with
  | Some _ => inl (Sqlite3Error (IntegrityError "UNIQUE constraint failed: resources.id"))
  | None =>
      inr (tt, Database (<[id := Resource name description 1]> (resources d))
                        (reservations d) (reservations_seq d))
  end.

(** [SELECT * FROM resources], in primary key order *)
Definition select_resources : statement (list (Z * string * string * Z)) := λ d,
  inr (omap (λ k, r ← resources d !! k;
                  Some (k, res_name r, res_description r, res_available r))
            (ordered_keys (resources d)), d).

(** [DELETE FROM reservations WHERE resource_id = ?] *)
Definition delete_reservations_of (resource_id : Z) : statement unit := λ d,
  inr (tt, Database (resources d)
                    (filter (λ kr, rsv_resource_id kr.2 ≠ resource_id)
                            (reservations d))
                    (reservations_seq d)).

(** [DELETE FROM resources WHERE id = ?] *)
Definition delete_resource_row (resource_id : Z) : statement unit := λ d,
  inr (tt, Database (delete resource_id (resources d)) (reservations d)
                    (reservations_seq d)).

(** [SELECT id FROM resources ORDER BY id] *)
Definition select_ids_ordered : statement (list Z) := λ d,
  inr (ordered_keys (resources d), d).

(** [UPDATE resources SET id = ? WHERE id = ?], bound to [(new, old)]: the
    row moves to the new key, which the primary key requires to be free. *)
Definition update_resources_id (new old : Z) : statement unit := λ d,
  match resources d !! old with
  | None => inr (tt, d)
  | Some r =>
      if decide (new = old) then inr (tt, d)
      else match resources d !! new with
           | Some _ => inl (Sqlite3Error (IntegrityError "UNIQUE constraint failed: resources.id"))
           | None =>
               inr (tt, Database (<[new := r]> (delete old (resources d)))
                                 (reservations d) (reservations_seq d))
           end
  end.

Definition relink (new old : Z) (r : reservation) : reservation :=
  if decide (rsv_resource_id r = old)
  then Reservation new (rsv_user_name r) (rsv_date r) else r.

(** [UPDATE reservations SET resource_id = ? WHERE resource_id = ?] *)
Definition update_reservations_resource_id (new old : Z) : statement unit := λ d,
  inr (tt, Database (resources d) (relink new old <$> reservations d)
                    (reservations_seq d)).

(** [SELECT id, available FROM resources WHERE id = ?] with [fetchone()] *)
Definition select_id_available (resource_id : Z) : statement (option (Z * Z)) := λ d,
  inr ((λ r, (resource_id, res_available r)) <$> resources d !! resource_id, d).

(** The id AUTOINCREMENT gives the next reservation: one more than the
    largest id ever used in the table. *)
Definition next_reservation_id (d : database) : Z :=
  Z.max (reservations_seq d) (default 0 (max_key (reservations d))) + 1.

(** [INSERT INTO reservations (resource_id, user_name, date) VALUES (?, ?, ?)]:
    once the largest 64-bit integer has been used as an id, AUTOINCREMENT has
    no id left and SQLite refuses the row (SQLITE_FULL). *)
Definition insert_reservation (resource_id : Z) (user_name date : string)
  : statement unit := λ d,
  let id := next_reservation_id d in
  if decide (int64 id) then
    inr (tt, Database (resources d)
                      (<[id := Reservation resource_id user_name date]> (reservations d))
                      id)
  else inl (Sqlite3Error (OperationalError "database or disk is full")).

Definition set_available (a : Z) (r : resource) : resource :=
  Resource (res_name r) (res_description r) a.

(** [UPDATE resources SET available = 0 WHERE id = ?] *)
Definition update_available_0 (resource_id : Z) : statement unit := λ d,
  inr (tt, Database (alter (set_available 0) resource_id (resources d))
                    (reservations d) (reservations_seq d)).

(** [DELETE FROM reservations WHERE id = ?] *)
Definition delete_reservation_row (reservation_id : Z) : statement unit := λ d,
  inr (tt, Database (resources d) (delete reservation_id (reservations d))
                    (reservations_seq d)).

(** [SELECT r.id, r.resource_id, r.user_name, r.date, res.name
     FROM reservations r JOIN resources res ON r.resource_id = res.id] *)
Definition select_reservations_join
  : statement (list (Z * Z * string * string * string)) := λ d,
  inr (omap (λ k, r ← reservations d !! k;
                  res ← resources d !! rsv_resource_id r;
                  Some (k, rsv_resource_id r, rsv_user_name r, rsv_date r,
                        res_name res))
            (ordered_keys (reservations d)), d).

(** *** The statement [update_resource] builds at run time

    The text is split into tokens and read against the grammar
    [UPDATE resources SET col = ? (, col = ?)* WHERE id = ?]. *)

Inductive token :=
  | TWord (w : string)
  | TComma
  | TEq
  | TPlaceholder.

Definition flush (w : string) (ts : list token) : list token :=
  match w with EmptyString => ts | _ => TWord w :: ts end.

Fixpoint tokenize (w : string) (s : string) : list token :=
  match s with
  | EmptyString => flush w []
  | String c s' =>
      if Ascii.eqb c " " then flush w (tokenize "" s')
      else if Ascii.eqb c "," then flush w (TComma :: tokenize "" s')
      else if Ascii.eqb c "=" then flush w (TEq :: tokenize "" s')
      else if Ascii.eqb c "?" then flush w (TPlaceholder :: tokenize "" s')
      else tokenize (w ++ String c "") s'
  end.

Inductive column := col_name | col_description | col_available.

Definition column_of (w : string) : option column :=
  if String.eqb w "name" then Some col_name
  else if String.eqb w "description" then Some col_description
  else if String.eqb w "available" then Some col_available
  else None.

(** The text of a token, as an error message quotes it. *)
Definition token_text (t : token) : string :=
  match t with
  | TWord w => w
  | TComma => ","
  | TEq => "="
  | TPlaceholder => "?"
  end.

(** Where the text stops being a statement: at a token, or at its end. *)
Inductive parse_error :=
  | near (t : token)
  | incomplete_input.

Definition unexpected (ts : list token) : parse_error :=
  match ts with
  | t :: _ => near t
  | [] => incomplete_input
  end.

(** [col = ? (, col = ?)*]; gives the columns and the tokens left over.  A
    word that is none of the three columns the store writes, the keyword
    WHERE for one, is refused where a column is expected. *)
Fixpoint parse_assignments (ts : list token)
  : parse_error + list column * list token :=
  match ts with
  | TWord w :: rest =>
      match column_of w with
      | None => inl (near (TWord w))
      | Some c =>
          match rest with
          | TEq :: TPlaceholder :: TComma :: rest' =>
              match parse_assignments rest' with
              | inr (cs, after) => inr (c :: cs, after)
              | inl e => inl e
              end
          | TEq :: TPlaceholder :: rest' => inr ([c], rest')
          | TEq :: rest' => inl (unexpected rest')
          | _ => inl (unexpected rest)
          end
      end
  | _ => inl (unexpected ts)
  end.

Definition parse_update (ts : list token) : parse_error + list column :=
  match ts with
  | TWord "UPDATE" :: TWord "resources" :: TWord "SET" :: rest =>
      match parse_assignments rest with
      | inr (cs, [TWord "WHERE"; TWord "id"; TEq; TPlaceholder]) => inr cs
      | inr (cs, TWord "WHERE" :: TWord "id" :: TEq :: TPlaceholder :: after) =>
          inl (unexpected after)
      | inr (cs, TWord "WHERE" :: TWord "id" :: TEq :: after) =>
          inl (unexpected after)
      | inr (cs, TWord "WHERE" :: TWord "id" :: after) => inl (unexpected after)
      | inr (cs, TWord "WHERE" :: after) => inl (unexpected after)
      | inr (cs, after) => inl (unexpected after)
      | inl e => inl e
      end
  | TWord "UPDATE" :: TWord "resources" :: rest => inl (unexpected rest)
  | TWord "UPDATE" :: rest => inl (unexpected rest)
  | _ => inl (unexpected ts)
  end.

(** The double quote character. *)
Definition quote : string := String (Ascii.ascii_of_nat 34) "".

(** The error SQLite reports for a text that is no statement. *)
Definition syntax_error (e : parse_error) : sqlite3_Error :=
  match e with
  | near t =>
      OperationalError ("near " ++ quote ++ token_text t ++ quote ++ ": syntax error")
  | incomplete_input => OperationalError "incomplete input"
  end.

(** One [col = ?] with its bound value.  The store binds text to [name]
    and [description] and an integer to [available]; the columns of the
    model are typed, so another pairing is refused. *)
Definition assign (c : column) (v : sql_value) : option (resource → resource) :=
  match c, v with
  | col_name, SqlText s =>
      Some (λ r, Resource s (res_description r) (res_available r))
  | col_description, SqlText s =>
      Some (λ r, Resource (res_name r) s (res_available r))
  | col_available, SqlInt z => Some (set_available z)
  | _, _ => None
  end.

(** The SET list applied left to right, then the key of [WHERE id = ?]. *)
Fixpoint bind_update (cs : list column) (params : list sql_value)
  : option ((resource → resource) * Z) :=
  match cs, params with
  | [], [SqlInt id] => Some (λ r, r, id)
  | c :: cs', v :: params' =>
      match assign c v, bind_update cs' params' with
      | Some f, Some (g, id) => Some (λ r, g (f r), id)
      | _, _ => None
      end
  | _, _ => None
  end.

(** [cursor.execute(update_query, params)] for a statement on [resources]
    built from text: the text is prepared, the number of parameters is
    checked, the parameters are bound, and the statement runs. *)
Definition execute_update (query : string) (params : list sql_value)
  : statement unit := λ d,
  match parse_update (tokenize "" query) with
  | inl e => inl (Sqlite3Error (syntax_error e))
  | inr cs =>
      if decide (List.length params = S (List.length cs)) then
        match bind_params params with
        | Some e => inl e
        | None =>
            match bind_update cs params with
            | Some (f, id) =>
                inr (tt, Database (alter f id (resources d)) (reservations d)
                                  (reservations_seq d))
            | None => inl (Sqlite3Error (InterfaceError "Error binding parameter"))
            end
        end
      else inl (Sqlite3Error (ProgrammingError "Incorrect number of bindings supplied"))
  end.

End Sql.

(** ** The methods of [ResourceReservationSystem] *)

Definition _generate_resource_id : M world Z :=
  max_id <- sqlite_call Sql.select_max_id ;;
  ret (match max_id with None => 1 | Some m => m + 1 end).

Definition add_resource (name description : string) : M world unit :=
  new_id <- _generate_resource_id ;;
  sqlite_call (Sql.bound [SqlInt new_id; SqlText name; SqlText description]
                 (Sql.insert_resource new_id name description)) ;;
  commit.

Definition view_resources : M world (list (Z * string * string * Z)) :=
  sqlite_call Sql.select_resources.

(** [if value:] on an optional string argument: [None] and [""] are false. *)
Definition supplied (value : option string) : option string :=
  match value with
  | Some s => if Py.truthy s then Some s else None
  | None => None
  end.

(** The list [updates] once the three [if]s have run. *)
Definition updates_of (name description : option string) (available : option Z)
  : list string :=
  let updates := [] in
  let updates :=
    match supplied name with Some _ => (updates ++ ["name = ?"])%list | None => updates end in
  let updates :=
    match supplied description with
    | Some _ => (updates ++ ["description = ?"])%list | None => updates end in
  let updates :=
    match available with Some _ => (updates ++ ["available = ?"])%list | None => updates end in
  updates.

(** The list [params] once the three [if]s and the last [append] have run. *)
Definition params_of (resource_id : Z) (name description : option string)
  (available : option Z) : list sql_value :=
  let params := [] in
  let params :=
    match supplied name with Some s => (params ++ [SqlText s])%list | None => params end in
  let params :=
    match supplied description with
    | Some s => (params ++ [SqlText s])%list | None => params end in
  let params :=
    match available with Some a => (params ++ [SqlInt a])%list | None => params end in
  (params ++ [SqlInt resource_id])%list.

(** [f"UPDATE resources SET {', '.join(updates)} WHERE id = ?"] *)
Definition update_query (updates : list string) : string :=
  "UPDATE resources SET " ++ Py.join ", " updates ++ " WHERE id = ?".

Definition update_resource (resource_id : Z) (name description : option string)
  (available : option Z) : M world unit :=
  let updates := updates_of name description available in
  let params := params_of resource_id name description available in
  sqlite_call (Sql.execute_update (update_query updates) params) ;;
  commit.

(** The [for index, (old_id,) in enumerate(resources, start=1)] loop, from
    [index] on the ids still to do. *)
Fixpoint reassign_loop (index : Z) (ids : list Z) : M world unit :=
  match ids with
  | [] => ret tt
  | old_id :: rest =>
      sqlite_call (Sql.bound [SqlInt index; SqlInt old_id]
                     (Sql.update_resources_id index old_id)) ;;
      sqlite_call (Sql.bound [SqlInt index; SqlInt old_id]
                     (Sql.update_reservations_resource_id index old_id)) ;;
      reassign_loop (index + 1) rest
  end.

Definition _reassign_ids : M world unit :=
  ids <- sqlite_call Sql.select_ids_ordered ;;
  reassign_loop 1 ids ;;
  commit.

Definition delete_resource (resource_id : Z) : M world unit :=
  sqlite_call (Sql.bound [SqlInt resource_id]
                 (Sql.delete_reservations_of resource_id)) ;;
  sqlite_call (Sql.bound [SqlInt resource_id]
                 (Sql.delete_resource_row resource_id)) ;;
  _reassign_ids ;;
  commit.

(** The body of the [try] of [create_reservation]. *)
Definition create_reservation_try (resource_id : Z) (user_name date : string)
  : M world bool :=
  if negb (Py.truthy (Py.strip user_name)) then ret false
  else
    resource <- sqlite_call (Sql.bound [SqlInt resource_id]
                               (Sql.select_id_available resource_id)) ;;
    match resource with
    | None =>
        print "Resource does not exist." ;;
        ret false
    | Some (_, available) =>
        if decide (available = 0) then
          print "Resource is not available." ;;
          ret false
        else
          sqlite_call (Sql.bound [SqlInt resource_id; SqlText user_name;
                                   SqlText date]
                         (Sql.insert_reservation resource_id user_name date)) ;;
          sqlite_call (Sql.bound [SqlInt resource_id]
                         (Sql.update_available_0 resource_id)) ;;
          commit ;;
          print "Reservation created successfully." ;;
          ret true
    end.

Definition create_reservation (resource_id : Z) (user_name date : string)
  : M world bool :=
  try_except (create_reservation_try resource_id user_name date)
    (λ e, print ("Database error during reservation: " ++ str e) ;;
          ret false).

Definition view_reservations : M world (list (Z * Z * string * string * string)) :=
  sqlite_call Sql.select_reservations_join.

(** ** The admin page

    [resource_ui] and [reservations_ui] are the two columns of the admin
    section.  Each row carries a Remove button whose handler is a lambda with
    default arguments, so it keeps the values the row had when the column was
    drawn: [rid] for a resource, [(rid, res_id)] for a reservation.  A column
    is the list of these captured values, one entry per button. *)
Record page := Page {
  sys : world;
  resource_ui : list Z;
  reservations_ui : list (Z * Z)
}.

(** Run a method of the store from a handler of the page. *)
Definition on_db {A} (m : M world A) : M page A := λ p,
  let '(o, w) := m (sys p) in (o, Page w (resource_ui p) (reservations_ui p)).

Definition set_resource_ui (controls : list Z) : M page unit := λ p,
  (Returned tt, Page (sys p) controls (reservations_ui p)).

Definition set_reservations_ui (controls : list (Z * Z)) : M page unit := λ p,
  (Returned tt, Page (sys p) (resource_ui p) controls).

Definition show_resource_ui : M page unit :=
  rows <- on_db view_resources ;;
  set_resource_ui ((λ row, row.1.1.1) <$> rows).

Definition show_reservations_ui : M page unit :=
  rows <- on_db view_reservations ;;
  set_reservations_ui ((λ res, (res.1.1.1.1, res.1.1.1.2)) <$> rows).

Definition remove_resource_ui (resource_id : Z) : M page unit :=
  on_db (delete_resource resource_id) ;;
  show_resource_ui.

Definition remove_reservation_ui (reservation_id resource_id : Z) : M page unit :=
  on_db (sqlite_call (Sql.bound [SqlInt reservation_id]
                        (Sql.delete_reservation_row reservation_id))) ;;
  on_db (update_resource resource_id None None (Some 1)) ;;
  show_reservations_ui.

(** The admin section after a successful login: both columns are drawn. *)
Definition admin_section : M page unit :=
  show_resource_ui ;;
  show_reservations_ui.

(** A click on the Remove button of row [n] of a column runs the handler
    with the values the button captured; a click where there is no button
    does nothing. *)
Definition click_remove_resource (n : nat) : M page unit := λ p,
  match resource_ui p !! n with
  | Some rid => remove_resource_ui rid p
  | None => (Returned tt, p)
  end.

Definition click_remove_reservation (n : nat) : M page unit := λ p,
  match reservations_ui p !! n with
  | Some (rid, res_id) => remove_reservation_ui rid res_id p
  | None => (Returned tt, p)
  end.

(** ** Tables the properties refer to *)

(** The tables a successful reservation leaves. *)
Definition reserved (d : database) (resource_id : Z) (user_name date : string)
  : database :=
  Database (alter (Sql.set_available 0) resource_id (resources d))
           (<[Sql.next_reservation_id d := Reservation resource_id user_name date]>
              (reservations d))
           (Sql.next_reservation_id d).

(** What [update_resource] is to make of a row: each field that was
    supplied takes the new value, each other field keeps its own. *)
Definition updated (name description : option string) (available : option Z)
  (r : resource) : resource :=
  Resource (default (res_name r) (supplied name))
           (default (res_description r) (supplied description))
           (default (res_available r) available).

(** No field is supplied. *)
Definition nothing_supplied (name description : option string)
  (available : option Z) : Prop :=
  supplied name = None ∧ supplied description = None ∧ available = None.

#[global] Instance nothing_supplied_dec name description available :
  Decision (nothing_supplied name description available).
Proof. unfold nothing_supplied. apply _. Defined.

(** A reservation pointed at resource [g k] instead of [k]; its own id, user
    name and date are kept. *)
Definition retarget (g : Z → Z) (r : reservation) : reservation :=
  Reservation (g (rsv_resource_id r)) (rsv_user_name r) (rsv_date r).

(** Where the renumbering loop, run from [index] over [ids], sends a
    reference to resource [k]: to the position of [k] in [ids], counted from
    [index]; a reference to no id of the list stays. *)
Fixpoint new_ref (index : Z) (ids : list Z) (k : Z) : Z :=
  match ids with
  | [] => k
  | old_id :: rest =>
      if decide (k = old_id) then index else new_ref (index + 1) rest k
  end.

(** Exchange of two keys. *)
Definition transpose (a b k : Z) : Z :=
  if decide (k = a) then b else if decide (k = b) then a else k.

(** The calls of the store a state can be reached by; [update_resource] has
    no parameter for a new id. *)
Inductive operation :=
  | op_add_resource (name description : string)
  | op_delete_resource (resource_id : Z)
  | op_create_reservation (resource_id : Z) (user_name date : string)
  | op_update_resource (resource_id : Z) (name description : option string)
      (available : option Z).

(** The tables after a call, whether it returned or raised, when the library
    reports no failure of its own. *)
Definition perform (o : operation) (d : database) : database :=
  match o with
  | op_add_resource name description =>
      db (add_resource name description (quiet d [])).2
  | op_delete_resource resource_id =>
      db (delete_resource resource_id (quiet d [])).2
  | op_create_reservation resource_id user_name date =>
      db (create_reservation resource_id user_name date (quiet d [])).2
  | op_update_resource resource_id name description available =>
      db (update_resource resource_id name description available (quiet d [])).2
  end.

Inductive reachable : database → Prop :=
  | reachable_empty : reachable empty_db
  | reachable_step d o : reachable d → reachable (perform o d).

(** The resource ids are exactly 1..n. *)
Definition contiguous (d : database) : Prop :=
  ∃ n : nat, ∀ k, is_Some (resources d !! k) ↔ 1 ≤ k ≤ Z.of_nat n.

(** The resource ids are exactly 1..n and are 64-bit integers. *)
Definition contiguous64 (d : database) : Prop :=
  ∃ n : nat, Z.of_nat n ≤ 9223372036854775807
             ∧ ∀ k, is_Some (resources d !! k) ↔ 1 ≤ k ≤ Z.of_nat n.

(** A state SQLite can hold: every id, resource id and flag of the tables,
    and the AUTOINCREMENT counter, is a 64-bit integer. *)
Definition stored (d : database) : Prop :=
  map_Forall (λ k r, Sql.int64 k ∧ Sql.int64 (res_available r)) (resources d)
  ∧ map_Forall (λ k r, Sql.int64 k ∧ Sql.int64 (rsv_resource_id r))
               (reservations d)
  ∧ Sql.int64 (reservations_seq d).

#[global] Instance stored_dec d : Decision (stored d).
Proof. unfold stored. apply _. Defined.

(** Every reservation refers to a resource of the table. *)
Definition references_exist (d : database) : Prop :=
  ∀ rid r, reservations d !! rid = Some r →
           is_Some (resources d !! rsv_resource_id r).


(** ** Further conditions on the tables *)

(** Reservation [rid] is the only one that refers to resource [k]. *)
Definition only_reservation_of (d : database) (k rid : Z) : Prop :=
  (∃ rv, reservations d !! rid = Some rv ∧ rsv_resource_id rv = k)
  ∧ ∀ rid' rv', reservations d !! rid' = Some rv' →
                rsv_resource_id rv' = k → rid' = rid.

(** No reservation refers to resource [k]. *)
Definition unreserved (d : database) (k : Z) : Prop :=
  ∀ rid rv, reservations d !! rid = Some rv → rsv_resource_id rv ≠ k.

(** The available flag tells whether a resource is reserved: it is 1 on a
    resource without reservation and 0 on a resource with exactly one. *)
Definition flags_match_reservations (d : database) : Prop :=
  ∀ k r, resources d !! k = Some r →
    (res_available r = 1 ∧ unreserved d k)
    ∨ (res_available r = 0 ∧ ∃ rid, only_reservation_of d k rid).

(** The states reached from the empty database by [add_resource],
    [delete_resource] and [create_reservation] alone. *)
Inductive reachable_by_booking : database → Prop :=
  | booking_empty : reachable_by_booking empty_db
  | booking_add d name description :
      reachable_by_booking d →
      reachable_by_booking (perform (op_add_resource name description) d)
  | booking_delete d resource_id :
      reachable_by_booking d →
      reachable_by_booking (perform (op_delete_resource resource_id) d)
  | booking_create d resource_id user_name date :
      reachable_by_booking d →
      reachable_by_booking
        (perform (op_create_reservation resource_id user_name date) d).

(** Where [delete_resource(resource_id)] sends the id [k] of another
    resource when the ids are 1..n: ids below stay, ids above move down by
    one. *)
Definition shifted (resource_id k : Z) : Z :=
  if decide (k < resource_id) then k else k - 1.

(** ** The resource management form

    The two text fields of the resource section, beside the page. *)
Record resource_form := ResourceForm {
  form_page : page;
  resource_name : string;
  resource_description : string
}.

(** Run a handler of the page from a handler of the form. *)
Definition on_page {A} (m : M page A) : M resource_form A := λ f,
  let '(o, p) := m (form_page f) in
  (o, ResourceForm p (resource_name f) (resource_description f)).

Definition set_fields (name description : string) : M resource_form unit := λ f,
  (Returned tt, ResourceForm (form_page f) name description).

Definition add_resource_ui : M resource_form unit := λ f,
  let name := resource_name f in
  let description := resource_description f in
  if Py.truthy name && Py.truthy description then
    (on_page (on_db (add_resource name description)) ;;
     set_fields "" "" ;;
     on_page show_resource_ui) f
  else (Returned tt, f).

(** * Properties *)

(** ** Strings *)

Lemma lstrip_chars_nil (l : list string) :
  Py.lstrip_chars l = [] ↔ forallb (λ c, Py.isspace (Py.code_point c)) l = true.
Proof.
  induction l as [|c l IH]; simpl; [done|].
  destruct (Py.isspace (Py.code_point c)); simpl; [done|]. split; done.
Qed.

Lemma forallb_lstrip_chars (l : list string) :
  forallb (λ c, Py.isspace (Py.code_point c)) (Py.lstrip_chars l) = true →
  Py.lstrip_chars l = [].
Proof.
  induction l as [|c l IH]; simpl; [done|].
  destruct (Py.isspace (Py.code_point c)) eqn:Hc; [done|].
  simpl. by rewrite Hc.
Qed.

Lemma forallb_rev {A} (p : A → bool) (l : list A) :
  forallb p (rev l) = forallb p l.
Proof.
  induction l as [|x l IH]; simpl; [done|].
  rewrite forallb_app, IH. simpl. rewrite andb_true_r. apply andb_comm.
Qed.

Lemma elem_of_rev_list {A} (l : list A) x : x ∈ rev l ↔ x ∈ l.
Proof. rewrite !list_elem_of_In. symmetry. apply in_rev. Qed.

Lemma rstrip_lstrip_chars_nil (l : list string) :
  Py.rstrip_chars (Py.lstrip_chars l) = []
  ↔ forallb (λ c, Py.isspace (Py.code_point c)) l = true.
Proof.
  unfold Py.rstrip_chars. split.
  - intros H. apply (f_equal (@rev string)) in H. rewrite rev_involutive in H.
    simpl in H. apply lstrip_chars_nil in H. rewrite forallb_rev in H.
    by apply lstrip_chars_nil, forallb_lstrip_chars.
  - intros H%lstrip_chars_nil. by rewrite H.
Qed.

Lemma lstrip_chars_sublist (l : list string) c :
  c ∈ Py.lstrip_chars l → c ∈ l.
Proof.
  induction l as [|x l IH]; simpl; [done|].
  destruct (Py.isspace (Py.code_point x)); [|done]. intros H. right. auto.
Qed.

(** No character of a string is empty. *)
Lemma chars_nonempty s c : c ∈ Py.chars s → c ≠ "".
Proof.
  remember (String.length s) as n eqn:Hn. revert s Hn c.
  induction n as [n IH] using lt_wf_ind. intros s Hn c.
  destruct s as [|a [|b [|c0 [|e r4]]]]; simpl;
    repeat (case_match; simpl);
    rewrite ?elem_of_cons, ?elem_of_nil; intros Hin;
    repeat (destruct Hin as [->|Hin]; [done|]); try done;
    (eapply IH; [|reflexivity|exact Hin]; subst n; simpl; lia).
Qed.

Lemma concat_nonempty (l : list string) :
  (∀ c, c ∈ l → c ≠ "") → String.concat "" l = "" → l = [].
Proof.
  destruct l as [|x l]; [done|]. intros Hne Hc. exfalso.
  assert (x ≠ "") as Hx by (apply Hne; by left).
  simpl in Hc. destruct l; [done|]. by destruct x.
Qed.

(** [not s.strip()] holds exactly of the strings made of whitespace only. *)
Lemma strip_falsy_iff_blank s :
  Py.truthy (Py.strip s) = false ↔ Py.blank s = true.
Proof.
  unfold Py.blank. rewrite <-rstrip_lstrip_chars_nil. unfold Py.strip. split.
  - intros H. apply concat_nonempty.
    + intros c Hc. apply (chars_nonempty s). apply lstrip_chars_sublist.
      unfold Py.rstrip_chars in Hc. rewrite elem_of_rev_list in Hc.
      apply lstrip_chars_sublist in Hc. by rewrite elem_of_rev_list in Hc.
    + by destruct (String.concat _ _).
  - by intros ->.
Qed.

(** ** Keys of a table *)

Section keys.
Context {A : Type}.
Implicit Types m : gmap Z A.

Lemma elem_of_keys m k : k ∈ (map_to_list m).*1 ↔ is_Some (m !! k).
Proof.
  rewrite list_elem_of_fmap. split.
  - intros [[k' x] [-> Hx]]. apply elem_of_map_to_list in Hx. by exists x.
  - intros [x Hx]. exists (k, x). split; [done|]. by apply elem_of_map_to_list.
Qed.

Lemma max_list_spec (l : list Z) :
  match foldr (λ k acc, Some (from_option (Z.max k) k acc)) None l with
  | None => l = []
  | Some k => k ∈ l ∧ ∀ j, j ∈ l → j ≤ k
  end.
Proof.
  induction l as [|x l IH]; simpl; [done|].
  destruct (foldr _ None l) as [k|]; simpl.
  - destruct IH as [Hk Hmax]. split.
    + destruct (Z.max_spec x k) as [[_ ->]|[_ ->]]; [by right | by left].
    + intros j [->|Hj]%elem_of_cons; [lia|]. specialize (Hmax j Hj). lia.
  - subst l. split; [by left|]. intros j [->|Hj]%elem_of_cons; [lia|].
    by apply elem_of_nil in Hj.
Qed.

Lemma max_key_None m : Sql.max_key m = None ↔ m = ∅.
Proof.
  unfold Sql.max_key. pose proof (max_list_spec (map_to_list m).*1) as H.
  split.
  - intros Hn. rewrite Hn in H. apply fmap_nil_inv in H.
    by apply map_to_list_empty_iff.
  - intros ->. by rewrite map_to_list_empty.
Qed.

Lemma max_key_Some m k :
  Sql.max_key m = Some k → is_Some (m !! k) ∧ ∀ j, is_Some (m !! j) → j ≤ k.
Proof.
  unfold Sql.max_key. pose proof (max_list_spec (map_to_list m).*1) as H.
  intros Hk. rewrite Hk in H. destruct H as [H1 H2]. split.
  - by apply elem_of_keys.
  - intros j Hj. by apply H2, elem_of_keys.
Qed.

Lemma elem_of_ordered_keys m k : k ∈ Sql.ordered_keys m ↔ is_Some (m !! k).
Proof.
  unfold Sql.ordered_keys. rewrite merge_sort_Permutation. apply elem_of_keys.
Qed.

Lemma NoDup_ordered_keys m : NoDup (Sql.ordered_keys m).
Proof.
  unfold Sql.ordered_keys. rewrite merge_sort_Permutation.
  apply NoDup_fst_map_to_list.
Qed.

Lemma length_ordered_keys m : List.length (Sql.ordered_keys m) = size m.
Proof.
  unfold Sql.ordered_keys. rewrite merge_sort_Permutation.
  by rewrite length_fmap, length_map_to_list.
Qed.

Lemma StronglySorted_le_lt (l : list Z) :
  StronglySorted Z.le l → NoDup l → StronglySorted Z.lt l.
Proof.
  induction 1 as [|x l Hl IH Hx]; intros Hnd; constructor.
  - apply IH. by apply NoDup_cons in Hnd as [_ ?].
  - apply NoDup_cons in Hnd as [Hni _].
    apply Forall_forall. intros y Hy.
    rewrite Forall_forall in Hx. specialize (Hx y Hy).
    assert (x ≠ y) by (intros ->; done). lia.
Qed.

(** [ORDER BY id] lists the keys in strictly increasing order. *)
Lemma ordered_keys_increasing m : StronglySorted Z.lt (Sql.ordered_keys m).
Proof.
  apply StronglySorted_le_lt; [|apply NoDup_ordered_keys].
  unfold Sql.ordered_keys. apply (StronglySorted_merge_sort Z.le).
Qed.

End keys.

(** A decidable condition on closed terms, by evaluation. *)
Ltac by_compute := refine (bool_decide_unpack _ _); vm_compute; exact I.

(** ** Handing values to SQLite *)

Lemma bind_param_int z : Sql.int64 z → Sql.bind_param (SqlInt z) = None.
Proof. intros Hz. simpl. by rewrite decide_True. Qed.

Lemma bind_param_int_overflow z :
  ¬ Sql.int64 z →
  Sql.bind_param (SqlInt z) =
  Some (OverflowError "Python int too large to convert to SQLite INTEGER").
Proof. intros Hz. simpl. by rewrite decide_False. Qed.

Lemma bind_param_text s :
  Py.encodable s = true → Py.utf8_length s ≤ Sql.MAX_LENGTH →
  Sql.bind_param (SqlText s) = None.
Proof.
  intros He Hl. simpl. rewrite He. simpl. unfold Sql.INT_MAX, Sql.MAX_LENGTH in *.
  rewrite !decide_False by lia. done.
Qed.

Lemma utf8_length_nonneg s : 0 ≤ Py.utf8_length s.
Proof. unfold Py.utf8_length. lia. Qed.

Lemma fits_cons s texts :
  Sql.fits (s :: texts) →
  Py.encodable s = true ∧ Py.utf8_length s ≤ Sql.MAX_LENGTH - 64
  ∧ Sql.fits texts.
Proof.
  intros [He Hl]. apply Forall_cons in He as [He Hes]. simpl in Hl.
  assert (64 ≤ foldr (λ s n, Py.utf8_length s + n) 64 texts) as Hge.
  { clear. induction texts as [|t texts IH]; simpl; [done|].
    pose proof (utf8_length_nonneg t). lia. }
  pose proof (utf8_length_nonneg s).
  split; [done|]. split; [lia|]. split; [done|]. lia.
Qed.

(** Text that fits can be bound. *)
Lemma bind_params_fits texts :
  Sql.fits texts → Sql.bind_params (SqlText <$> texts) = None.
Proof.
  induction texts as [|s texts IH]; [done|].
  intros (He & Hl & Hfits)%fits_cons. cbn [fmap list_fmap Sql.bind_params].
  rewrite bind_param_text by (done || unfold Sql.MAX_LENGTH in *; lia). auto.
Qed.

Lemma bind_params_cons v params :
  Sql.bind_params (v :: params) =
  match Sql.bind_param v with
  | Some e => Some e
  | None => Sql.bind_params params
  end.
Proof. done. Qed.

Lemma bind_params_cons_int z params :
  Sql.int64 z → Sql.bind_params (SqlInt z :: params) = Sql.bind_params params.
Proof. intros Hz. cbn [Sql.bind_params]. by rewrite bind_param_int. Qed.

Lemma bind_params_cons_overflow z params :
  ¬ Sql.int64 z →
  Sql.bind_params (SqlInt z :: params) =
  Some (OverflowError "Python int too large to convert to SQLite INTEGER").
Proof. intros Hz. cbn [Sql.bind_params]. by rewrite bind_param_int_overflow. Qed.

Lemma bound_run {A} params (stmt : statement A) d :
  Sql.bind_params params = None → Sql.bound params stmt d = stmt d.
Proof. intros H. unfold Sql.bound. by rewrite H. Qed.

Lemma bound_raise {A} params (stmt : statement A) d e :
  Sql.bind_params params = Some e → Sql.bound params stmt d = inl e.
Proof. intros H. unfold Sql.bound. by rewrite H. Qed.

#[local] Arguments Sql.bind_params : simpl never.
#[local] Arguments Sql.bind_param : simpl never.

(** ** Running a method when the library reports no failure *)

Lemma sqlite_call_quiet {A} (stmt : statement A) d out :
  sqlite_call stmt (quiet d out) =
  match stmt d with
  | inl e => (Raised e, quiet d out)
  | inr (a, d') => (Returned a, quiet d' out)
  end.
Proof. unfold sqlite_call. simpl. by destruct (stmt d) as [e|[a d']]. Qed.

#[local] Arguments quiet : simpl never.
#[local] Arguments commit : simpl never.
#[local] Arguments sqlite_call : simpl never.

Lemma commit_quiet d out : commit (quiet d out) = (Returned tt, quiet d out).
Proof. unfold commit. by rewrite sqlite_call_quiet. Qed.

Lemma print_quiet s d out :
  print s (quiet d out) = (Returned tt, quiet d (out ++ [s])%list).
Proof. done. Qed.

(** The id [_generate_resource_id] computes is free, above every id in use,
    and next to the largest one. *)
Lemma next_id_spec (m : gmap Z resource) :
  let new_id := match Sql.max_key m with None => 1 | Some k => k + 1 end in
  m !! new_id = None
  ∧ (m = ∅ → new_id = 1)
  ∧ (∀ k, is_Some (m !! k) → k < new_id)
  ∧ (m ≠ ∅ → is_Some (m !! (new_id - 1))).
Proof.
  destruct (Sql.max_key m) as [k|] eqn:Hk; simpl.
  - apply max_key_Some in Hk as [Hin Hmax].
    assert (∀ j, is_Some (m !! j) → j < k + 1) as Hlt.
    { intros j Hj. specialize (Hmax j Hj). lia. }
    split; [|split; [|split]]; [| |done|].
    + apply eq_None_not_Some. intros Hs. specialize (Hlt _ Hs). lia.
    + intros ->. destruct Hin as [x Hx]. by rewrite lookup_empty in Hx.
    + intros _. by replace (k + 1 - 1) with k by lia.
  - apply max_key_None in Hk as ->.
    split; [|split; [|split]]; [done|done| |done].
    intros k [x Hx]. by rewrite lookup_empty in Hx.
Qed.

(** [add_resource] binds the new id and the two texts; it raises what the
    binding raises and changes nothing then, and inserts the row otherwise. *)
Lemma add_resource_quiet d out name description :
  let new_id := match Sql.max_key (resources d) with
                | None => 1 | Some k => k + 1 end in
  add_resource name description (quiet d out) =
  match Sql.bind_params [SqlInt new_id; SqlText name; SqlText description] with
  | Some e => (Raised e, quiet d out)
  | None =>
      (Returned tt,
       quiet (Database (<[new_id := Resource name description 1]> (resources d))
                       (reservations d) (reservations_seq d)) out)
  end.
Proof.
  intros new_id. unfold add_resource, _generate_resource_id, bind, ret.
  rewrite sqlite_call_quiet. cbn [Sql.select_max_id]. fold new_id.
  rewrite sqlite_call_quiet. unfold Sql.bound.
  destruct (Sql.bind_params _) as [e|]; [done|].
  unfold Sql.insert_resource.
  destruct (next_id_spec (resources d)) as [Hfree _]. fold new_id in Hfree.
  rewrite Hfree. by rewrite commit_quiet.
Qed.

Lemma stored_key_int64 d k : stored d → is_Some (resources d !! k) → Sql.int64 k.
Proof. intros (Hres & _) [r Hr]. by destruct (Hres k r Hr). Qed.

(** The 64-bit ids of a table that has not used the largest 64-bit integer
    leave room for one more. *)
Lemma next_id_int64 (m : gmap Z resource) :
  (∀ k, is_Some (m !! k) → Sql.int64 k) →
  m !! 9223372036854775807 = None →
  Sql.int64 (match Sql.max_key m with None => 1 | Some k => k + 1 end).
Proof.
  intros Hkeys Hfull. unfold Sql.int64.
  destruct (Sql.max_key m) as [k|] eqn:Hk; [|lia].
  apply max_key_Some in Hk as [Hin _].
  pose proof (Hkeys k Hin) as Hk64. unfold Sql.int64 in Hk64.
  assert (k ≠ 9223372036854775807).
  { intros ->. rewrite Hfull in Hin. by destruct Hin. }
  lia.
Qed.

Lemma add_resource_fits d out name description :
  (∀ k, is_Some (resources d !! k) → Sql.int64 k) →
  resources d !! 9223372036854775807 = None →
  Sql.fits [name; description] →
  add_resource name description (quiet d out) =
  (Returned tt,
   quiet (Database
            (<[match Sql.max_key (resources d) with None => 1 | Some k => k + 1 end
               := Resource name description 1]> (resources d))
            (reservations d) (reservations_seq d)) out).
Proof.
  intros Hd Hfull Hfits. rewrite add_resource_quiet. cbv zeta.
  rewrite bind_params_cons_int by by apply next_id_int64.
  pose proof (bind_params_fits [name; description] Hfits) as Hb.
  cbn [fmap list_fmap] in Hb. by rewrite Hb.
Qed.

(** C4, as stated, at a table whose largest id is the largest 64-bit
    integer: the new id, one more, cannot be handed to SQLite;
    [add_resource] raises [OverflowError] and inserts nothing. *)
Lemma add_resource_overflows_at_largest_id :
  let d := Database {[9223372036854775807 := Resource "Room A" "a" 1]} ∅ 0 in
  stored d
  ∧ add_resource "Room B" "b" (quiet d []) =
    (Raised (OverflowError "Python int too large to convert to SQLite INTEGER"),
     quiet d []).
Proof. split; [by_compute|by vm_compute]. Qed.

(** C4, amended.  In a state SQLite can hold in which the largest 64-bit
    integer is not in use as a resource id, and for a name and a description
    that fit a row, [add_resource name description] returns after inserting
    one new row [(new_id, name, description, 1)]: [new_id] was not in use, it
    is 1 when the table is empty, and otherwise it is one more than the
    largest id of the table; nothing else changes. *)
Theorem add_resource_assigns_max_plus_one
  (d : database) (out : list string) (name description : string) :
  stored d →
  resources d !! 9223372036854775807 = None →
  Sql.fits [name; description] →
  ∃ new_id,
    add_resource name description (quiet d out) =
      (Returned tt,
       quiet (Database (<[new_id := Resource name description 1]> (resources d))
                       (reservations d) (reservations_seq d)) out)
    ∧ resources d !! new_id = None
    ∧ (resources d = ∅ → new_id = 1)
    ∧ (resources d ≠ ∅ →
       is_Some (resources d !! (new_id - 1))
       ∧ ∀ k, is_Some (resources d !! k) → k ≤ new_id - 1).
Proof.
  intros Hd Hfull Hfits.
  eexists. split.
  { apply add_resource_fits; [|done..]. intros k. by apply stored_key_int64. }
  destruct (next_id_spec (resources d)) as (Hfree & Hempty & Habove & Hnext).
  split; [done|]. split; [done|]. intros Hne. split; [by apply Hnext|].
  intros k Hk. specialize (Habove k Hk). simpl in Habove. lia.
Qed.

Lemma add_resource_assigns_max_plus_one_witness :
  let d := Database {[1 := Resource "Room A" "a" 1; 4 := Resource "Room B" "b" 0]}
                    ∅ 0 in
  ∃ new_id,
    add_resource "Room C" "c" (quiet d []) =
      (Returned tt,
       quiet (Database (<[new_id := Resource "Room C" "c" 1]> (resources d))
                       (reservations d) (reservations_seq d)) [])
    ∧ resources d !! new_id = None
    ∧ (resources d = ∅ → new_id = 1)
    ∧ (resources d ≠ ∅ →
       is_Some (resources d !! (new_id - 1))
       ∧ ∀ k, is_Some (resources d !! k) → k ≤ new_id - 1).
Proof.
  intros d. apply (add_resource_assigns_max_plus_one d [] "Room C" "c").
  - by_compute.
  - vm_compute. reflexivity.
  - split; [repeat constructor|]. vm_compute. discriminate.
Defined.

(** ** [create_reservation] *)

Lemma strip_truthy_not_blank s :
  Py.blank s = false → negb (Py.truthy (Py.strip s)) = false.
Proof.
  intros Hb. destruct (Py.truthy (Py.strip s)) eqn:Ht; [done|].
  apply strip_falsy_iff_blank in Ht. congruence.
Qed.

Lemma create_reservation_blank w resource_id user_name date :
  Py.blank user_name = true →
  create_reservation resource_id user_name date w = (Returned false, w).
Proof.
  intros Hb%strip_falsy_iff_blank.
  unfold create_reservation, try_except, create_reservation_try.
  by rewrite Hb.
Qed.

(** A resource id outside 64 bits stops the SELECT before it runs, with an
    exception that is no [sqlite3.Error]. *)
Lemma create_reservation_overflow d out resource_id user_name date :
  Py.blank user_name = false →
  ¬ Sql.int64 resource_id →
  create_reservation resource_id user_name date (quiet d out) =
  (Raised (OverflowError "Python int too large to convert to SQLite INTEGER"),
   quiet d out).
Proof.
  intros Hb%strip_truthy_not_blank Hr.
  unfold create_reservation, try_except, create_reservation_try, bind.
  rewrite Hb, sqlite_call_quiet.
  by rewrite (bound_raise _ _ _ _ (bind_params_cons_overflow _ _ Hr)).
Qed.

Lemma create_reservation_missing d out resource_id user_name date :
  Py.blank user_name = false →
  Sql.int64 resource_id →
  resources d !! resource_id = None →
  create_reservation resource_id user_name date (quiet d out) =
  (Returned false, quiet d (out ++ ["Resource does not exist."])%list).
Proof.
  intros Hb%strip_truthy_not_blank Hid Hr.
  unfold create_reservation, try_except, create_reservation_try, bind.
  rewrite Hb, sqlite_call_quiet.
  rewrite bound_run by by rewrite bind_params_cons_int.
  unfold Sql.select_id_available. by rewrite Hr.
Qed.

Lemma create_reservation_unavailable d out resource_id r user_name date :
  Py.blank user_name = false →
  Sql.int64 resource_id →
  resources d !! resource_id = Some r →
  res_available r = 0 →
  create_reservation resource_id user_name date (quiet d out) =
  (Returned false, quiet d (out ++ ["Resource is not available."])%list).
Proof.
  intros Hb%strip_truthy_not_blank Hid Hr Ha.
  unfold create_reservation, try_except, create_reservation_try, bind.
  rewrite Hb, sqlite_call_quiet.
  rewrite bound_run by by rewrite bind_params_cons_int.
  unfold Sql.select_id_available.
  rewrite Hr. simpl. by rewrite decide_True.
Qed.

(** On an available resource the three values of the INSERT are bound; what
    this raises goes through unless it is an [sqlite3.Error]; then the row is
    inserted if AUTOINCREMENT has an id left. *)
Lemma create_reservation_available d out resource_id r user_name date :
  Py.blank user_name = false →
  Sql.int64 resource_id →
  resources d !! resource_id = Some r →
  res_available r ≠ 0 →
  create_reservation resource_id user_name date (quiet d out) =
  match Sql.bind_params [SqlText user_name; SqlText date] with
  | Some (Sqlite3Error e) =>
      (Returned false,
       quiet d (out ++ [("Database error during reservation: " ++ str e)%string])%list)
  | Some e => (Raised e, quiet d out)
  | None =>
      if decide (Sql.int64 (Sql.next_reservation_id d)) then
        (Returned true,
         quiet (reserved d resource_id user_name date)
               (out ++ ["Reservation created successfully."])%list)
      else
        (Returned false,
         quiet d (out ++ ["Database error during reservation: database or disk is full"])%list)
  end.
Proof.
  intros Hb%strip_truthy_not_blank Hid Hr Ha.
  unfold create_reservation, try_except, create_reservation_try, bind.
  rewrite Hb, sqlite_call_quiet.
  rewrite bound_run by by rewrite bind_params_cons_int.
  unfold Sql.select_id_available.
  rewrite Hr. simpl. rewrite decide_False by done.
  rewrite sqlite_call_quiet. unfold Sql.bound at 1.
  rewrite bind_params_cons_int by done.
  destruct (Sql.bind_params _) as [[e| |]|]; [done..|].
  unfold Sql.insert_reservation. case_decide; [|done].
  rewrite sqlite_call_quiet.
  rewrite bound_run by by rewrite bind_params_cons_int.
  unfold Sql.update_available_0. simpl. done.
Qed.

Lemma create_reservation_succeeds d out resource_id r user_name date :
  Py.blank user_name = false →
  Sql.int64 resource_id →
  resources d !! resource_id = Some r →
  res_available r ≠ 0 →
  Sql.fits [user_name; date] →
  Sql.int64 (Sql.next_reservation_id d) →
  create_reservation resource_id user_name date (quiet d out) =
  (Returned true,
   quiet (reserved d resource_id user_name date)
         (out ++ ["Reservation created successfully."])%list).
Proof.
  intros Hb Hid Hr Ha Hfits Hnext.
  rewrite (create_reservation_available d out resource_id r) by done.
  pose proof (bind_params_fits [user_name; date] Hfits) as Hbind.
  cbn [fmap list_fmap] in Hbind. rewrite Hbind. by rewrite decide_True.
Qed.

(** Whatever the arguments, [create_reservation] leaves the tables as they
    were or makes the reservation of an available resource. *)
Lemma create_reservation_quiet_db d resource_id user_name date :
  let d' := db (create_reservation resource_id user_name date (quiet d [])).2 in
  d' = d
  ∨ (d' = reserved d resource_id user_name date
     ∧ Sql.int64 resource_id
     ∧ Sql.int64 (Sql.next_reservation_id d)
     ∧ ∃ r, resources d !! resource_id = Some r ∧ res_available r ≠ 0).
Proof.
  intros d'. subst d'.
  destruct (Py.blank user_name) eqn:Hb.
  { left. by rewrite create_reservation_blank. }
  destruct (decide (Sql.int64 resource_id)) as [Hid|Hid].
  2: { left. by rewrite create_reservation_overflow. }
  destruct (resources d !! resource_id) as [r|] eqn:Hr.
  2: { left. by rewrite create_reservation_missing. }
  destruct (decide (res_available r = 0)) as [Ha|Ha].
  { left. by erewrite create_reservation_unavailable. }
  rewrite (create_reservation_available d [] resource_id r) by done.
  destruct (Sql.bind_params _) as [[e| |]|]; [by left..|].
  case_decide; [|by left]. right. eauto 10.
Qed.

(** AUTOINCREMENT never reuses a key of the table. *)
Lemma next_reservation_id_fresh d :
  reservations d !! Sql.next_reservation_id d = None.
Proof.
  apply eq_None_not_Some. intros Hs. unfold Sql.next_reservation_id in Hs.
  destruct (Sql.max_key (reservations d)) as [k|] eqn:Hk; simpl in Hs.
  - apply max_key_Some in Hk as [_ Hmax]. specialize (Hmax _ Hs). lia.
  - apply max_key_None in Hk. rewrite Hk in Hs.
    destruct Hs as [x Hx]. by rewrite lookup_empty in Hx.
Qed.

(** A call into the library either reports the failure that is pending or
    runs its statement. *)
Lemma sqlite_call_cases {A} (stmt : statement A) w :
  (∃ e w', sqlite_call stmt w = (Raised (Sqlite3Error e), w') ∧ db w' = db w)
  ∨ sqlite_call stmt w =
    match stmt (db w) with
    | inl e => (Raised e, World (db w) (tail (pending_errors w)) (stdout w))
    | inr (a, d) => (Returned a, World d (tail (pending_errors w)) (stdout w))
    end.
Proof.
  unfold sqlite_call. destruct (pending_errors w) as [|[e|] rest]; eauto.
Qed.

(** C2, as stated, at a resource id that is no 64-bit integer: no resource
    has that id, but the SELECT cannot be given it; [create_reservation]
    raises [OverflowError], which is no [sqlite3.Error], and returns
    nothing. *)
Lemma create_reservation_raises_on_large_id :
  let d := Database {[1 := Resource "Room A" "desc" 1]} ∅ 0 in
  resources d !! 9223372036854775808 = None
  ∧ create_reservation 9223372036854775808 "Bob" "2024-01-02" (quiet d []) =
    (Raised (OverflowError "Python int too large to convert to SQLite INTEGER"),
     quiet d []).
Proof. split; by vm_compute. Qed.

(** C2, amended.  Whatever the tables, the pending library failures and
    the output so far: when [user_name] is made of whitespace only (or is
    empty), or [resource_id] is a 64-bit integer and either no resource has
    that id or the resource has [available = 0], [create_reservation] returns
    [False] and the two tables (and the AUTOINCREMENT counter) are what they
    were. *)
Theorem create_reservation_refused_unchanged
  (w : world) (resource_id : Z) (user_name date : string) :
  Py.blank user_name = true
  ∨ (Sql.int64 resource_id
     ∧ (resources (db w) !! resource_id = None
        ∨ ∃ r, resources (db w) !! resource_id = Some r ∧ res_available r = 0)) →
  ∃ w', create_reservation resource_id user_name date w = (Returned false, w')
        ∧ db w' = db w.
Proof.
  intros H. destruct (Py.blank user_name) eqn:Hb.
  { exists w. by rewrite create_reservation_blank. }
  destruct H as [H|[Hid H]]; [done|].
  apply strip_truthy_not_blank in Hb.
  unfold create_reservation, try_except, create_reservation_try, bind.
  rewrite Hb. unfold sqlite_call.
  rewrite bound_run by by rewrite bind_params_cons_int.
  destruct (pending_errors w) as [|[e|] rest]; simpl;
    try (eexists; split; reflexivity);
    (destruct H as [->|(r & -> & Ha)]; simpl;
       [|rewrite decide_True by done]; eexists; split; reflexivity).
Qed.

Lemma create_reservation_refused_unchanged_witness :
  ∃ w', create_reservation 1 "Bob" "2024-01-02"
          (quiet (Database {[1 := Resource "Room A" "desc" 0]} ∅ 0) [])
        = (Returned false, w')
        ∧ db w' = Database {[1 := Resource "Room A" "desc" 0]} ∅ 0.
Proof.
  apply (create_reservation_refused_unchanged
           (quiet (Database {[1 := Resource "Room A" "desc" 0]} ∅ 0) [])
           1 "Bob" "2024-01-02").
  right. split; [unfold Sql.int64; lia|].
  right. exists (Resource "Room A" "desc" 0). split; reflexivity.
Defined.

(** C3, as stated, at two inputs.  When the AUTOINCREMENT counter of
    [reservations] has reached the largest 64-bit integer, SQLite refuses
    the INSERT; [create_reservation] on an available resource prints the
    error, returns [False] and reserves nothing.  And a user name with a lone
    surrogate (here U+D800 alone, which is not blank) cannot be handed to
    SQLite: [create_reservation] raises [UnicodeEncodeError]. *)
Lemma create_reservation_fails_on_available_resource :
  (let d := Database {[1 := Resource "Room A" "desc" 1]} ∅ 9223372036854775807 in
   stored d
   ∧ create_reservation 1 "Alice" "2024-01-01" (quiet d []) =
     (Returned false,
      quiet d ["Database error during reservation: database or disk is full"]))
  ∧ (let d := Database {[1 := Resource "Room A" "desc" 1]} ∅ 0 in
     let user_name :=
       String (ascii_of_nat 237) (String (ascii_of_nat 160)
         (String (ascii_of_nat 128) "")) in
     Py.blank user_name = false
     ∧ create_reservation 1 user_name "2024-01-01" (quiet d []) =
       (Raised UnicodeEncodeError, quiet d [])).
Proof.
  split.
  - intros d. split; [by_compute|by vm_compute].
  - split; by vm_compute.
Qed.

(** C3, amended.  In a database where resource [resource_id], a 64-bit
    integer, has [available = 1] and AUTOINCREMENT has an id left for
    [reservations], a reservation under a user name that is not blank, with
    a user name and a date that fit a row, returns [True], adds exactly one
    row to [reservations] (under a key that was free) and leaves the
    resource with [available = 0] and its other columns as they were; any
    further [create_reservation] on that resource then returns [False] and
    leaves the tables unchanged.  From the empty database:
    [add_resource("Room A","desc")] gives the resource id 1,
    [create_reservation(1,"Alice","2024-01-01")] returns [True] and leaves
    resource 1 unavailable, and [create_reservation(1,"Bob","2024-01-02")]
    then returns [False]. *)
Theorem create_reservation_succeeds_once :
  (∀ (d : database) (out : list string) (resource_id : Z) (r : resource)
     (user_name date : string),
     resources d !! resource_id = Some r →
     res_available r = 1 →
     Py.blank user_name = false →
     Sql.int64 resource_id →
     Sql.fits [user_name; date] →
     Sql.int64 (Sql.next_reservation_id d) →
     let d1 := reserved d resource_id user_name date in
     create_reservation resource_id user_name date (quiet d out) =
       (Returned true, quiet d1 (out ++ ["Reservation created successfully."])%list)
     ∧ (∃ k, reservations d !! k = None
             ∧ reservations d1 =
               <[k := Reservation resource_id user_name date]> (reservations d))
     ∧ resources d1 !! resource_id =
       Some (Resource (res_name r) (res_description r) 0)
     ∧ (∀ k, k ≠ resource_id → resources d1 !! k = resources d !! k)
     ∧ ∀ (out' : list string) (user_name' date' : string),
         ∃ out'', create_reservation resource_id user_name' date' (quiet d1 out')
                  = (Returned false, quiet d1 out''))
  ∧ (let w1 := (add_resource "Room A" "desc" (quiet empty_db [])).2 in
     let r2 := create_reservation 1 "Alice" "2024-01-01" w1 in
     let r3 := create_reservation 1 "Bob" "2024-01-02" r2.2 in
     resources (db w1) = {[1 := Resource "Room A" "desc" 1]}
     ∧ r2.1 = Returned true
     ∧ resources (db r2.2) !! 1 = Some (Resource "Room A" "desc" 0)
     ∧ r3.1 = Returned false
     ∧ db r3.2 = db r2.2).
Proof.
  split.
  - intros d out resource_id r user_name date Hr Ha Hb Hid Hfits Hnext d1.
    assert (resources d1 !! resource_id =
            Some (Resource (res_name r) (res_description r) 0)) as Hr1.
    { unfold d1, reserved. simpl. by rewrite lookup_alter_eq, Hr. }
    split; [|split; [|split; [|split]]].
    + apply (create_reservation_succeeds _ _ _ r); [done|done|done|lia|done|done].
    + exists (Sql.next_reservation_id d). split; [|done].
      apply next_reservation_id_fresh.
    + done.
    + intros k Hk. unfold d1, reserved. simpl. by rewrite lookup_alter_ne.
    + intros out' user_name' date'.
      destruct (Py.blank user_name') eqn:Hb'.
      * exists out'. by apply create_reservation_blank.
      * eexists. by eapply create_reservation_unavailable.
  - vm_compute. done.
Qed.

Lemma create_reservation_succeeds_once_witness :
  create_reservation 1 "Alice" "2024-01-01"
    (quiet (Database {[1 := Resource "Room A" "desc" 1]} ∅ 0) []) =
  (Returned true,
   quiet (reserved (Database {[1 := Resource "Room A" "desc" 1]} ∅ 0)
                   1 "Alice" "2024-01-01")
         ["Reservation created successfully."]).
Proof.
  apply (proj1 create_reservation_succeeds_once
           (Database {[1 := Resource "Room A" "desc" 1]} ∅ 0) [] 1
           (Resource "Room A" "desc" 1) "Alice" "2024-01-01").
  - reflexivity.
  - reflexivity.
  - reflexivity.
  - unfold Sql.int64. lia.
  - split; [repeat constructor|]. vm_compute. discriminate.
  - by_compute.
Defined.

(** What the [try] of [create_reservation] raises is an [sqlite3.Error] or
    what the binding of its three arguments raises. *)
Lemma create_reservation_try_raises w resource_id user_name date e w1 :
  create_reservation_try resource_id user_name date w = (Raised e, w1) →
  (∃ e', e = Sqlite3Error e')
  ∨ Sql.bind_params [SqlInt resource_id; SqlText user_name; SqlText date]
    = Some e.
Proof.
  unfold create_reservation_try, bind.
  destruct (negb _); [done|].
  destruct (sqlite_call_cases
              (Sql.bound [SqlInt resource_id]
                 (Sql.select_id_available resource_id)) w)
    as [(e0 & w0 & -> & _)| ->].
  { intros [= <- <-]. eauto. }
  unfold Sql.bound at 1. rewrite !bind_params_cons.
  destruct (Sql.bind_param (SqlInt resource_id)) as [e0|] eqn:Hid.
  { intros [= <- <-]. by right. }
  unfold Sql.select_id_available.
  destruct (resources (db w) !! resource_id) as [r|]; [|done]. simpl.
  case_decide; [done|].
  match goal with
  | |- context [sqlite_call ?stmt ?w] =>
      destruct (sqlite_call_cases stmt w) as [(e0 & w0 & -> & _)| ->]
  end.
  { intros [= <- <-]. eauto. }
  unfold Sql.bound at 1. rewrite !bind_params_cons. rewrite Hid.
  destruct (Sql.bind_param (SqlText user_name)) as [e0|].
  { intros [= <- <-]. by right. }
  destruct (Sql.bind_param (SqlText date)) as [e0|].
  { intros [= <- <-]. by right. }
  unfold Sql.insert_reservation. simpl. case_decide.
  2: { intros [= <- <-]. eauto. }
  match goal with
  | |- context [sqlite_call ?stmt ?w] =>
      destruct (sqlite_call_cases stmt w) as [(e0 & w0 & -> & _)| ->]
  end.
  { intros [= <- <-]. eauto. }
  unfold Sql.bound at 1. rewrite !bind_params_cons. rewrite Hid.
  unfold Sql.update_available_0. simpl.
  match goal with
  | |- context [commit ?w] =>
      destruct (sqlite_call_cases (λ d, inr (tt, d)) w)
        as [(e0 & w0 & Hc & _)| Hc]; unfold commit; rewrite Hc
  end.
  { intros [= <- <-]. eauto. }
  done.
Qed.

(** C6, as stated, at two inputs.  At a blank user name
    [create_reservation] returns [False] but prints nothing (the world,
    standard output included, is what it was).  At a resource id that is no
    64-bit integer the exception raised while the id is handed to SQLite is
    no [sqlite3.Error]: it escapes, and no boolean is returned. *)
Lemma create_reservation_silent_or_raising :
  let w := quiet (Database {[1 := Resource "Room A" "desc" 1]} ∅ 0) [] in
  (create_reservation 1 "  " "2024-01-01" w = (Returned false, w)
   ∧ stdout (create_reservation 1 "  " "2024-01-01" w).2 = stdout w)
  ∧ create_reservation 9223372036854775808 "Alice" "2024-01-01" w =
    (Raised (OverflowError "Python int too large to convert to SQLite INTEGER"),
     w).
Proof. split; [split|]; by vm_compute. Qed.

(** C6, amended.  [create_reservation] lets no [sqlite3.Error] escape,
    whatever the tables, the arguments and the failures of the library; and
    when the resource id is a 64-bit integer and the user name and the date
    have no lone surrogate and at most [INT_MAX] bytes each, it lets no
    exception escape at all and returns a boolean.  A blank user name gives
    [False] with nothing printed and nothing changed; a [sqlite3.Error]
    raised inside the [try] gives [False] after printing "Database error
    during reservation: " and the error; and when the library reports no
    failure and the resource id is a 64-bit integer, a missing resource
    gives [False] after printing "Resource does not exist." and an
    unavailable one gives [False] after printing "Resource is not
    available.". *)
Theorem create_reservation_catches_sqlite_errors
  (w : world) (resource_id : Z) (user_name date : string) :
  (∀ e w', create_reservation resource_id user_name date w
           ≠ (Raised (Sqlite3Error e), w'))
  ∧ (Sql.int64 resource_id →
     Py.encodable user_name = true → Py.utf8_length user_name ≤ Sql.INT_MAX →
     Py.encodable date = true → Py.utf8_length date ≤ Sql.INT_MAX →
     ∃ b w', create_reservation resource_id user_name date w = (Returned b, w'))
  ∧ (Py.blank user_name = true →
     create_reservation resource_id user_name date w = (Returned false, w))
  ∧ (∀ (e : sqlite3_Error) w1,
       create_reservation_try resource_id user_name date w = (Raised e, w1) →
       create_reservation resource_id user_name date w =
       (Returned false,
        World (db w1) (pending_errors w1)
              (stdout w1 ++ [("Database error during reservation: " ++ str e)%string])%list))
  ∧ (Py.blank user_name = false → pending_errors w = [] →
     Sql.int64 resource_id →
     resources (db w) !! resource_id = None →
     create_reservation resource_id user_name date w =
     (Returned false,
      World (db w) [] (stdout w ++ ["Resource does not exist."])%list))
  ∧ (Py.blank user_name = false → pending_errors w = [] →
     Sql.int64 resource_id →
     (∃ r, resources (db w) !! resource_id = Some r ∧ res_available r = 0) →
     create_reservation resource_id user_name date w =
     (Returned false,
      World (db w) [] (stdout w ++ ["Resource is not available."])%list)).
Proof.
  split; [|split; [|split; [|split; [|split]]]].
  - intros e w'. unfold create_reservation, try_except.
    destruct (create_reservation_try _ _ _ w) as [[b|[e0|msg|]] w1]; done.
  - intros Hid Hu1 Hu2 Hd1 Hd2.
    unfold create_reservation, try_except.
    destruct (create_reservation_try _ _ _ w) as [[b|e] w1] eqn:Htry; [eauto|].
    apply create_reservation_try_raises in Htry as [[e' ->]|Hbind]; [eauto|].
    rewrite !bind_params_cons in Hbind.
    rewrite bind_param_int in Hbind by done.
    unfold Sql.bind_param in Hbind. rewrite Hu1, Hd1 in Hbind. simpl in Hbind.
    rewrite !(decide_False (P := Sql.INT_MAX < _)) in Hbind by lia.
    repeat case_decide; try done; injection Hbind as <-; eauto.
  - apply create_reservation_blank.
  - intros e w1 He. unfold create_reservation, try_except. by rewrite He.
  - intros Hb Hq Hid Hr. destruct w as [d pe out]. simpl in *. subst pe.
    by apply create_reservation_missing.
  - intros Hb Hq Hid (r & Hr & Ha). destruct w as [d pe out]. simpl in *. subst pe.
    by eapply create_reservation_unavailable.
Qed.

Lemma create_reservation_catches_sqlite_errors_witness :
  ∃ b w',
    create_reservation 1 "Alice" "2024-01-01"
      (World (Database {[1 := Resource "Room A" "desc" 1]} ∅ 0)
             [None; Some (OperationalError "disk I/O error")] [])
    = (Returned b, w').
Proof.
  apply (create_reservation_catches_sqlite_errors
           (World (Database {[1 := Resource "Room A" "desc" 1]} ∅ 0)
                  [None; Some (OperationalError "disk I/O error")] [])
           1 "Alice" "2024-01-01").
  - unfold Sql.int64. lia.
  - reflexivity.
  - vm_compute. discriminate.
  - reflexivity.
  - vm_compute. discriminate.
Defined.

(** A failure of the library in the middle of a reservation (here on the
    INSERT, the second call) is caught and reported. *)
Example create_reservation_catches_database_error :
  create_reservation 1 "Alice" "2024-01-01"
    (World (Database {[1 := Resource "Room A" "desc" 1]} ∅ 0)
           [None; Some (OperationalError "disk I/O error")] []) =
  (Returned false,
   World (Database {[1 := Resource "Room A" "desc" 1]} ∅ 0) []
         ["Database error during reservation: disk I/O error"]).
Proof. reflexivity. Qed.

(** ** [update_resource] *)

Lemma supplied_None value : supplied value = None ↔ value = None ∨ value = Some "".
Proof.
  destruct value as [[|c s]|]; simpl; split; try done; auto.
  all: intros [|]; done.
Qed.

(** With no field the text has an empty SET list; the grammar wants a
    column where the text has WHERE. *)
Lemma update_query_nothing name description available :
  nothing_supplied name description available →
  update_query (updates_of name description available) =
    "UPDATE resources SET  WHERE id = ?"
  ∧ Sql.parse_update
      (Sql.tokenize "" (update_query (updates_of name description available)))
    = inl (Sql.near (Sql.TWord "WHERE")).
Proof.
  intros (Hn & Hd & ->). unfold updates_of. rewrite Hn, Hd. by vm_compute.
Qed.

(** [update_resource] raises the syntax error when no field is supplied;
    otherwise it binds its parameters, raises what the binding raises and
    changes nothing then, and writes the supplied fields otherwise. *)
Lemma update_resource_quiet d out resource_id name description available :
  update_resource resource_id name description available (quiet d out) =
  if decide (nothing_supplied name description available)
  then (Raised (Sql.syntax_error (Sql.near (Sql.TWord "WHERE"))), quiet d out)
  else
    match Sql.bind_params (params_of resource_id name description available) with
    | Some e => (Raised e, quiet d out)
    | None =>
        (Returned tt,
         quiet (Database (alter (updated name description available) resource_id
                                (resources d))
                         (reservations d) (reservations_seq d)) out)
    end.
Proof.
  unfold update_resource, bind. rewrite sqlite_call_quiet.
  unfold Sql.execute_update, updates_of, params_of, updated.
  destruct (decide (nothing_supplied name description available)) as [Hn|Hn].
  - destruct Hn as (Hn & Hd & ->). rewrite Hn, Hd. by vm_compute.
  - destruct (supplied name) as [n|] eqn:Hsn,
      (supplied description) as [ds|] eqn:Hsd, available as [a|];
      try (by destruct Hn);
      match goal with
      | |- context [Sql.parse_update ?ts] =>
          let p := eval vm_compute in (Sql.parse_update ts) in
          change (Sql.parse_update ts) with p
      end; cbn [app List.length]; rewrite decide_True by done;
      (destruct (Sql.bind_params _); [done|]); cbn; rewrite commit_quiet;
      do 3 f_equal; apply alter_ext;
      by intros [].
Qed.

(** The parameters of [update_resource] can be bound when the integers
    among them are 64-bit integers and each text supplied fits a row. *)
Lemma bind_params_of resource_id name description available :
  Sql.int64 resource_id →
  (∀ a, available = Some a → Sql.int64 a) →
  (∀ s, name = Some s → Sql.fits [s]) →
  (∀ s, description = Some s → Sql.fits [s]) →
  Sql.bind_params (params_of resource_id name description available) = None.
Proof.
  intros Hid Ha Hn Hd. unfold params_of.
  assert (∀ value : option string, (∀ s, value = Some s → Sql.fits [s]) →
            ∀ s, supplied value = Some s → Sql.bind_param (SqlText s) = None)
    as Htext.
  { intros [s0|] Hv s; simpl; [|done]. destruct (Py.truthy s0); [|done].
    intros [= <-]. destruct (fits_cons s0 [] (Hv _ eq_refl)) as (? & ? & _).
    apply bind_param_text; [done|]. unfold Sql.MAX_LENGTH in *. lia. }
  destruct (supplied name) as [n|] eqn:Hsn,
    (supplied description) as [ds|] eqn:Hsd, available as [a|];
    cbn [app]; rewrite ?bind_params_cons;
    rewrite ?(Htext name Hn n Hsn), ?(Htext description Hd ds Hsd);
    rewrite ?(bind_param_int a) by auto;
    by rewrite bind_param_int.
Qed.

(** C7, as stated, at an available flag that is no 64-bit integer:
    [update_resource(1, available=2**63)] raises [OverflowError] while the
    flag is handed to SQLite, and the row keeps the flag it had although a
    new one was supplied. *)
Lemma update_resource_raises_on_large_flag :
  let d := Database {[1 := Resource "Room A" "desc" 1]} ∅ 0 in
  let run := update_resource 1 None None (Some 9223372036854775808) (quiet d []) in
  run.1 = Raised (OverflowError "Python int too large to convert to SQLite INTEGER")
  ∧ resources (db run.2) !! 1 = Some (Resource "Room A" "desc" 1).
Proof. split; by vm_compute. Qed.

(** C7, amended.  When [id] and the [available] supplied are 64-bit
    integers, each text supplied fits a row, and so do the name and the
    description of the row as updated,
    [update_resource(id, name, description, available)] leaves [reservations]
    and every row of [resources] with another id as they are, and keeps the
    id of the row it is aimed at; in that row each field that is supplied
    ([name] and [description] not [None] and not empty, [available] not
    [None]) takes the new value and each field that is not supplied keeps
    its previous value. *)
Theorem update_resource_changes_supplied_fields_only
  (d : database) (out : list string) (resource_id : Z)
  (name description : option string) (available : option Z) :
  Sql.int64 resource_id →
  (∀ a, available = Some a → Sql.int64 a) →
  (∀ s, name = Some s → Sql.fits [s]) →
  (∀ s, description = Some s → Sql.fits [s]) →
  (∀ r, resources d !! resource_id = Some r →
        Sql.fits [res_name (updated name description available r);
                  res_description (updated name description available r)]) →
  ∃ o d',
    update_resource resource_id name description available (quiet d out)
      = (o, quiet d' out)
    ∧ reservations d' = reservations d
    ∧ reservations_seq d' = reservations_seq d
    ∧ (∀ k, k ≠ resource_id → resources d' !! k = resources d !! k)
    ∧ resources d' !! resource_id =
      (λ r, Resource
              (match name with
               | Some s => if decide (s = "") then res_name r else s
               | None => res_name r end)
              (match description with
               | Some s => if decide (s = "") then res_description r else s
               | None => res_description r end)
              (match available with
               | Some a => a
               | None => res_available r end))
        <$> resources d !! resource_id.
Proof.
  intros Hid Ha Hname Hdesc _.
  rewrite update_resource_quiet. case_decide as Hn.
  - do 2 eexists. split; [done|]. split; [done|]. split; [done|].
    split; [done|]. destruct Hn as (Hn & Hd & ->).
    destruct (resources d !! resource_id) as [[n0 d0 a0]|]; [|done]. simpl.
    apply supplied_None in Hn as [->| ->], Hd as [->| ->]; done.
  - rewrite bind_params_of by done.
    do 2 eexists. split; [done|]. simpl. split; [done|]. split; [done|].
    split.
    + intros k Hk. by rewrite lookup_alter_ne.
    + rewrite lookup_alter_eq.
      destruct (resources d !! resource_id) as [r|]; [|done]. simpl.
      unfold updated.
      by destruct name as [[|c s]|], description as [[|c' s']|], available.
Qed.

Lemma update_resource_changes_supplied_fields_only_witness :
  let d := Database {[1 := Resource "Room A" "desc" 1; 2 := Resource "Room B" "b" 1]}
                    ∅ 0 in
  ∃ o d',
    update_resource 1 (Some "Hall") (Some "") (Some 0) (quiet d [])
      = (o, quiet d' [])
    ∧ resources d' !! 2 = Some (Resource "Room B" "b" 1)
    ∧ resources d' !! 1 = Some (Resource "Hall" "desc" 0).
Proof.
  intros d.
  destruct (update_resource_changes_supplied_fields_only
              d [] 1 (Some "Hall") (Some "") (Some 0))
    as (o & d' & Hrun & _ & _ & Hother & Hrow).
  - unfold Sql.int64. lia.
  - intros a [= <-]. unfold Sql.int64. lia.
  - intros s [= <-]. split; [repeat constructor|]. vm_compute. discriminate.
  - intros s [= <-]. split; [repeat constructor|]. vm_compute. discriminate.
  - intros r Hr. vm_compute in Hr. injection Hr as <-.
    split; [repeat constructor|]. vm_compute. discriminate.
  - exists o, d'. split; [exact Hrun|]. split.
    + rewrite Hother by lia. reflexivity.
    + rewrite Hrow. reflexivity.
Defined.

(** C9.  When no field is supplied ([name] and [description] are [None] or
    empty and [available] is [None]) the statement [update_resource] builds
    is "UPDATE resources SET  WHERE id = ?", whose SET list is empty; it does
    not parse, so the call raises and the tables stay as they were.  When the
    library reports no failure of its own the exception is the syntax error
    SQLite reports at WHERE. *)
Theorem update_resource_without_fields_raises
  (w : world) (resource_id : Z) (name description : option string)
  (Hname : name = None ∨ name = Some "")
  (Hdescription : description = None ∨ description = Some "") :
  update_query (updates_of name description None) =
    "UPDATE resources SET  WHERE id = ?"
  ∧ Sql.parse_update
      (Sql.tokenize "" (update_query (updates_of name description None)))
    = inl (Sql.near (Sql.TWord "WHERE"))
  ∧ ∃ e w',
      update_resource resource_id name description None w = (Raised e, w')
      ∧ db w' = db w
      ∧ (pending_errors w = [] →
         e = OperationalError
               ("near " ++ Sql.quote ++ "WHERE" ++ Sql.quote ++ ": syntax error")).
Proof.
  assert (nothing_supplied name description None) as Hn.
  { by split; [|split]; [apply supplied_None..|]. }
  destruct (update_query_nothing _ _ _ Hn) as [Hq Hp].
  split; [done|]. split; [done|].
  unfold update_resource, bind, sqlite_call, Sql.execute_update.
  rewrite Hp.
  destruct (pending_errors w) as [|[e|] rest]; simpl;
    do 2 eexists; (split; [reflexivity|]); split; done.
Qed.

Lemma update_resource_without_fields_raises_witness :
  ∃ e w',
    update_resource 1 None (Some "") None
      (quiet (Database {[1 := Resource "Room A" "desc" 1]} ∅ 0) [])
    = (Raised e, w')
    ∧ db w' = Database {[1 := Resource "Room A" "desc" 1]} ∅ 0
    ∧ e = OperationalError
            ("near " ++ Sql.quote ++ "WHERE" ++ Sql.quote ++ ": syntax error").
Proof.
  destruct (update_resource_without_fields_raises
              (quiet (Database {[1 := Resource "Room A" "desc" 1]} ∅ 0) [])
              1 None (Some "") (or_introl eq_refl) (or_intror eq_refl))
    as (_ & _ & e & w' & Hrun & Hdb & He).
  exists e, w'. split; [exact Hrun|]. split; [exact Hdb|].
  apply He. reflexivity.
Defined.

(** ** The renumbering loop *)

Lemma retarget_id r : retarget id r = r.
Proof. by destruct r. Qed.

Lemma fmap_retarget_id (rs : gmap Z reservation) : retarget id <$> rs = rs.
Proof.
  rewrite <-(map_fmap_id rs) at 2.
  apply map_fmap_ext. intros ? r _. by rewrite retarget_id.
Qed.

Lemma relink_retarget new old r :
  Sql.relink new old r = retarget (λ k, if decide (k = old) then new else k) r.
Proof. unfold Sql.relink, retarget. destruct r as [k u dt]. simpl. by case_decide. Qed.

Lemma new_ref_not_in index ids k : k ∉ ids → new_ref index ids k = k.
Proof.
  revert index. induction ids as [|old rest IH]; intros index Hk; simpl; [done|].
  apply not_elem_of_cons in Hk as [Hne Hk]. rewrite decide_False by done. auto.
Qed.

Lemma new_ref_position index ids (i : nat) k :
  NoDup ids → ids !! i = Some k → new_ref index ids k = index + Z.of_nat i.
Proof.
  revert index i. induction ids as [|old rest IH]; intros index i Hnd Hi; [done|].
  apply NoDup_cons in Hnd as [Hni Hnd]. simpl. destruct i as [|i]; simpl in Hi.
  - injection Hi as ->. rewrite decide_True by done. lia.
  - rewrite decide_False.
    + rewrite (IH (index + 1) i) by done. lia.
    + intros ->. apply Hni. by eapply list_elem_of_lookup_2.
Qed.

(** One [UPDATE resources SET id = index WHERE id = old_id] of the loop,
    when [index] is free or is [old_id] itself: the row, if any, is found
    under [index] afterwards. *)
Lemma update_resources_id_free (index old : Z) d :
  index = old ∨ resources d !! index = None →
  ∃ m1, Sql.update_resources_id index old d =
          inr (tt, Database m1 (reservations d) (reservations_seq d))
        ∧ m1 !! index = resources d !! old
        ∧ (index ≠ old → m1 !! old = None)
        ∧ (∀ k, k ≠ index → k ≠ old → m1 !! k = resources d !! k).
Proof.
  intros Hfree. unfold Sql.update_resources_id. destruct d as [m rs seq].
  simpl in *.
  destruct (m !! old) as [r|] eqn:Hold.
  - case_decide as Heq.
    + subst index. exists m. by rewrite Hold.
    + destruct Hfree as [|Hfree]; [done|]. rewrite Hfree.
      eexists. split; [done|]. split; [by rewrite lookup_insert_eq|]. split.
      * intros _. rewrite lookup_insert_ne by done. by rewrite lookup_delete_eq.
      * intros k Hk1 Hk2. rewrite lookup_insert_ne by done.
        by rewrite lookup_delete_ne.
  - exists m. split; [done|]. split.
    + destruct Hfree as [->|Hfree]; congruence.
    + split; [done|]. done.
Qed.

(** The loop over an increasing list of 64-bit ids that starts at or above
    [index], in a table whose other ids are below [index]: every value can
    be bound and the loop returns; the rows below [index] stay, the row of
    the [i]-th id of the list is found under [index + i], and nothing is left
    above. *)
Lemma reassign_loop_increasing ids :
  ∀ index m rs seq out,
    StronglySorted Z.lt ids →
    Forall (λ k, index ≤ k) ids →
    Forall Sql.int64 ids →
    -9223372036854775808 ≤ index →
    (∀ k, is_Some (m !! k) → k ∈ ids ∨ k < index) →
    ∃ m',
      reassign_loop index ids (quiet (Database m rs seq) out) =
        (Returned tt,
         quiet (Database m' (retarget (new_ref index ids) <$> rs) seq) out)
      ∧ (∀ k, k < index → m' !! k = m !! k)
      ∧ (∀ (i : nat) k, ids !! i = Some k → m' !! (index + Z.of_nat i) = m !! k)
      ∧ (∀ k, index + Z.of_nat (List.length ids) ≤ k → m' !! k = None).
Proof.
  induction ids as [|old rest IH]; intros index m rs seq out Hs Hge H64 Hmin Hdom.
  { exists m. simpl. split.
    - unfold ret. do 3 f_equal. rewrite <-(map_fmap_id rs) at 1.
      apply map_fmap_ext. intros ? r _. by destruct r.
    - split; [done|]. split; [done|]. intros k Hk.
      apply eq_None_not_Some. intros [Hin|Hlt]%Hdom; [|lia].
      by apply elem_of_nil in Hin. }
  apply StronglySorted_inv in Hs as [Hs Hlt]. rewrite Forall_forall in Hlt.
  apply Forall_cons in Hge as [Hold Hge]. rewrite Forall_forall in Hge.
  apply Forall_cons in H64 as [Hold64 H64].
  assert (Sql.bind_params [SqlInt index; SqlInt old] = None) as Hbind.
  { rewrite !bind_params_cons_int; [done|done|].
    unfold Sql.int64 in *. lia. }
  assert (index = old ∨ m !! index = None) as Hfree.
  { destruct (decide (index = old)) as [|Hne]; [by left|right].
    apply eq_None_not_Some. intros [Hin|?]%Hdom; [|lia].
    apply elem_of_cons in Hin as [?|Hin]; [done|]. specialize (Hlt _ Hin). lia. }
  destruct (update_resources_id_free index old (Database m rs seq) Hfree)
    as (m1 & Hrun & Hindex & Hgone & Hsame). simpl in *.
  destruct (IH (index + 1) m1 (Sql.relink index old <$> rs) seq out)
    as (m' & Hloop & Hbelow & Hat & Habove).
  { done. }
  { apply Forall_forall. intros k Hk. specialize (Hlt _ Hk). lia. }
  { done. }
  { lia. }
  { intros k Hk. destruct (decide (k = index)) as [->|Hki]; [right; lia|].
    destruct (decide (k = old)) as [->|Hko].
    { rewrite Hgone in Hk by done. by destruct Hk. }
    rewrite Hsame in Hk by done. apply Hdom in Hk as [Hin|?]; [|right; lia].
    apply elem_of_cons in Hin as [?|?]; [done|by left]. }
  exists m'. split; [|split; [|split]].
  - unfold bind. rewrite sqlite_call_quiet, (bound_run _ _ _ Hbind), Hrun.
    rewrite sqlite_call_quiet, (bound_run _ _ _ Hbind).
    unfold Sql.update_reservations_resource_id.
    simpl. rewrite Hloop. do 3 f_equal.
    rewrite <-map_fmap_compose. apply map_fmap_ext. intros ? r _. simpl.
    unfold Sql.relink, retarget. destruct r as [k u dt]. simpl.
    destruct (decide (k = old)) as [->|Hr]; simpl; [|done].
    f_equal. apply new_ref_not_in. intros Hin. specialize (Hlt _ Hin). lia.
  - intros k Hk. rewrite Hbelow by lia. apply Hsame; lia.
  - intros [|i] k Hi; simpl in Hi.
    + injection Hi as ->. replace (index + Z.of_nat 0) with index by lia.
      rewrite Hbelow by lia. done.
    + replace (index + Z.of_nat (S i)) with (index + 1 + Z.of_nat i) by lia.
      rewrite (Hat i k Hi).
      assert (k ∈ rest) as Hin by (by eapply list_elem_of_lookup_2).
      specialize (Hlt _ Hin). apply Hsame; lia.
  - intros k Hk. apply Habove. simpl in Hk. lia.
Qed.

(** ** [delete_resource] *)

(** An id outside 64 bits stops the first DELETE before it runs. *)
Lemma delete_resource_overflow d out resource_id :
  ¬ Sql.int64 resource_id →
  delete_resource resource_id (quiet d out) =
  (Raised (OverflowError "Python int too large to convert to SQLite INTEGER"),
   quiet d out).
Proof.
  intros Hid. unfold delete_resource, bind. rewrite sqlite_call_quiet.
  by rewrite (bound_raise _ _ _ _ (bind_params_cons_overflow _ _ Hid)).
Qed.

(** In a table whose ids are all 64-bit integers and at least 1,
    [delete_resource] of a 64-bit id returns, and the row of the [i]-th
    remaining id (in increasing order, from 0) is found under [i + 1]. *)
Lemma delete_resource_renumbers d out resource_id :
  Sql.int64 resource_id →
  (∀ k, is_Some (resources d !! k) → 1 ≤ k ≤ 9223372036854775807) →
  let ks := Sql.ordered_keys (delete resource_id (resources d)) in
  ∃ m',
    delete_resource resource_id (quiet d out) =
      (Returned tt,
       quiet (Database m'
                (retarget (new_ref 1 ks) <$>
                   filter (λ kr, rsv_resource_id kr.2 ≠ resource_id)
                          (reservations d))
                (reservations_seq d)) out)
    ∧ (∀ (i : nat) k, ks !! i = Some k →
         m' !! (Z.of_nat i + 1) = resources d !! k)
    ∧ (∀ k, is_Some (m' !! k) ↔ 1 ≤ k ≤ Z.of_nat (List.length ks)).
Proof.
  intros Hid Hpos ks.
  assert (∀ k, k ∈ ks → k ≠ resource_id ∧ is_Some (resources d !! k)) as Hks.
  { intros k Hk. apply elem_of_ordered_keys in Hk as [r Hr].
    apply lookup_delete_Some in Hr as [? Hr]. eauto. }
  destruct (reassign_loop_increasing ks 1 (delete resource_id (resources d))
              (filter (λ kr, rsv_resource_id kr.2 ≠ resource_id) (reservations d))
              (reservations_seq d) out)
    as (m' & Hloop & Hbelow & Hat & Habove).
  { apply ordered_keys_increasing. }
  { apply Forall_forall. intros k Hk. apply Hpos, Hks, Hk. }
  { apply Forall_forall. intros k Hk. destruct (Hks k Hk) as [_ Hs].
    apply Hpos in Hs. unfold Sql.int64. lia. }
  { lia. }
  { intros k Hk. left. by apply elem_of_ordered_keys. }
  exists m'. split; [|split].
  - unfold delete_resource, _reassign_ids, bind.
    rewrite sqlite_call_quiet, bound_run by by rewrite bind_params_cons_int.
    cbn [Sql.delete_reservations_of].
    rewrite sqlite_call_quiet, bound_run by by rewrite bind_params_cons_int.
    cbn [Sql.delete_resource_row].
    rewrite !sqlite_call_quiet. simpl. fold ks.
    unfold quiet in *. by rewrite Hloop.
  - intros i k Hi. replace (Z.of_nat i + 1) with (1 + Z.of_nat i) by lia.
    rewrite (Hat i k Hi). apply lookup_delete_ne.
    intros <-. by apply (Hks resource_id); [eapply list_elem_of_lookup_2|].
  - intros k. split.
    + intros Hk. destruct (decide (1 ≤ k)) as [H1|H1].
      * split; [done|]. destruct (decide (k ≤ Z.of_nat (List.length ks))); [done|].
        rewrite Habove in Hk by lia. by destruct Hk.
      * rewrite Hbelow in Hk by lia. destruct Hk as [r Hr].
        apply lookup_delete_Some in Hr as [_ Hr].
        assert (1 ≤ k) by (apply Hpos; eauto). lia.
    + intros [H1 H2].
      destruct (lookup_lt_is_Some_2 ks (Z.to_nat (k - 1))) as [k0 Hk0]; [lia|].
      specialize (Hat _ _ Hk0).
      replace (1 + Z.of_nat (Z.to_nat (k - 1))) with k in Hat by lia.
      rewrite Hat. apply elem_of_ordered_keys. by eapply list_elem_of_lookup_2.
Qed.

(** C1, as stated, at two states.  In a table with the ids 0, 1 and 2, once
    resource 2 is deleted the loop starts with
    [UPDATE resources SET id = 1 WHERE id = 0], which the primary key
    refuses because id 1 is taken; [delete_resource] raises and the
    remaining ids are still 0 and 1.  And in a table with Room A under id 2
    and Room B under id 3 and a reservation whose [resource_id] is 1, the
    id of no resource, [delete_resource(3)] moves Room A to id 1 and leaves
    the reservation as it is: the reservation, which referred to no
    resource, now refers to Room A. *)
Lemma delete_resource_breaks_renumbering :
  (let d := Database {[0 := Resource "Room A" "a" 1; 1 := Resource "Room B" "b" 1;
                       2 := Resource "Room C" "c" 1]} ∅ 0 in
   let run := delete_resource 2 (quiet d []) in
   is_Some (resources d !! 2)
   ∧ run.1 = Raised (IntegrityError "UNIQUE constraint failed: resources.id")
   ∧ resources (db run.2) !! 0 = Some (Resource "Room A" "a" 1)
   ∧ resources (db run.2) !! 1 = Some (Resource "Room B" "b" 1)
   ∧ resources (db run.2) !! 2 = None)
  ∧ (let d := Database {[2 := Resource "Room A" "a" 1; 3 := Resource "Room B" "b" 1]}
                       {[1 := Reservation 1 "Alice" "2024-01-01"]} 1 in
     let run := delete_resource 3 (quiet d []) in
     is_Some (resources d !! 3)
     ∧ resources d !! 1 = None
     ∧ run.1 = Returned tt
     ∧ resources (db run.2) = {[1 := Resource "Room A" "a" 1]}
     ∧ reservations (db run.2) = {[1 := Reservation 1 "Alice" "2024-01-01"]}).
Proof. split; vm_compute; repeat split; eauto. Qed.

(** C1, amended.  In a state SQLite can hold whose resource ids are all at
    least 1 (as are all ids the store itself assigns) and whose reservations
    all refer to resources of the table, [delete_resource(id)] for an id of
    the table returns, and with [ks] the remaining ids in increasing order:
    the reservations of resource [id] are gone and no other is; the resource
    ids are now exactly 1..n, [n] the length of [ks]; the row that had the
    [i]-th id of [ks] is now under [i + 1], so the order is kept; and every
    remaining reservation referred to the resource that had the [i]-th id of
    [ks], for some [i], and now has [resource_id = i + 1], so it refers to
    the same row of [resources] as before, with its user name and date
    kept. *)
Theorem delete_resource_removes_and_renumbers
  (d : database) (out : list string) (resource_id : Z) :
  stored d →
  is_Some (resources d !! resource_id) →
  (∀ k, is_Some (resources d !! k) → 1 ≤ k) →
  references_exist d →
  ∃ d' ks,
    delete_resource resource_id (quiet d out) = (Returned tt, quiet d' out)
    ∧ StronglySorted Z.lt ks
    ∧ (∀ k, k ∈ ks ↔ k ≠ resource_id ∧ is_Some (resources d !! k))
    ∧ (∀ k, is_Some (resources d' !! k) ↔ 1 ≤ k ≤ Z.of_nat (List.length ks))
    ∧ (∀ (i : nat) k, ks !! i = Some k →
         resources d' !! (Z.of_nat i + 1) = resources d !! k)
    ∧ (∀ rid r, reservations d !! rid = Some r →
         rsv_resource_id r = resource_id → reservations d' !! rid = None)
    ∧ (∀ rid r, reservations d !! rid = Some r →
         rsv_resource_id r ≠ resource_id →
         ∃ r' (i : nat),
           reservations d' !! rid = Some r'
           ∧ rsv_user_name r' = rsv_user_name r
           ∧ rsv_date r' = rsv_date r
           ∧ ks !! i = Some (rsv_resource_id r)
           ∧ rsv_resource_id r' = Z.of_nat i + 1
           ∧ resources d' !! rsv_resource_id r' = resources d !! rsv_resource_id r)
    ∧ (∀ rid, reservations d !! rid = None → reservations d' !! rid = None).
Proof.
  intros Hd Hin Hpos Href.
  destruct (delete_resource_renumbers d out resource_id)
    as (m' & Hrun & Hat & Hdom).
  { by eapply stored_key_int64. }
  { intros k Hk. pose proof (stored_key_int64 d k Hd Hk) as H64.
    specialize (Hpos k Hk). unfold Sql.int64 in H64. lia. }
  set (ks := Sql.ordered_keys (delete resource_id (resources d))) in *.
  assert (∀ k, k ∈ ks ↔ k ≠ resource_id ∧ is_Some (resources d !! k)) as Hks.
  { intros k. unfold ks. rewrite elem_of_ordered_keys. split.
    - intros [r [? ?]%lookup_delete_Some]. eauto.
    - intros [? [r Hr]]. exists r. by apply lookup_delete_Some. }
  eexists _, ks. split; [exact Hrun|]. simpl.
  split; [apply ordered_keys_increasing|].
  split; [done|]. split; [done|]. split; [done|]. split; [|split].
  - intros rid r Hr Hid. rewrite lookup_fmap.
    rewrite (proj2 (map_lookup_filter_None _ _ rid)); [done|].
    right. intros r0 Hr0. simpl. congruence.
  - intros rid r Hr Hid. rewrite lookup_fmap.
    rewrite (map_lookup_filter_Some_2 _ _ rid r) by done. simpl.
    assert (rsv_resource_id r ∈ ks) as Hk by (apply Hks; eauto).
    apply list_elem_of_lookup in Hk as [i Hi].
    eexists _, i. split; [done|]. split; [done|]. split; [done|].
    split; [done|]. simpl.
    rewrite (new_ref_position 1 ks i) by (done || apply NoDup_ordered_keys).
    split; [lia|].
    replace (1 + Z.of_nat i) with (Z.of_nat i + 1) by lia. by apply Hat.
  - intros rid Hr. rewrite lookup_fmap.
    rewrite (proj2 (map_lookup_filter_None _ _ rid)); [done|]. by left.
Qed.

Lemma delete_resource_removes_and_renumbers_witness :
  ∃ d' ks,
    delete_resource 1
      (quiet (Database {[1 := Resource "Room A" "a" 0; 2 := Resource "Room B" "b" 0]}
                       {[1 := Reservation 1 "Alice" "2024-01-01";
                         2 := Reservation 2 "Bob" "2024-01-02"]} 2) [])
    = (Returned tt, quiet d' [])
    ∧ ks = [2]
    ∧ resources d' = {[1 := Resource "Room B" "b" 0]}
    ∧ reservations d' = {[2 := Reservation 1 "Bob" "2024-01-02"]}.
Proof.
  destruct (delete_resource_removes_and_renumbers
              (Database {[1 := Resource "Room A" "a" 0; 2 := Resource "Room B" "b" 0]}
                        {[1 := Reservation 1 "Alice" "2024-01-01";
                          2 := Reservation 2 "Bob" "2024-01-02"]} 2) [] 1)
    as (d' & ks & Hrun & _).
  - by_compute.
  - vm_compute. eauto.
  - intros k [r Hr]. simpl in Hr.
    apply lookup_insert_Some in Hr as [[<- _]|[_ Hr]]; [lia|].
    apply lookup_singleton_Some in Hr as [<- _]. lia.
  - intros rid r Hr. simpl in Hr.
    apply lookup_insert_Some in Hr as [[_ <-]|[_ Hr]]; [vm_compute; eauto|].
    apply lookup_singleton_Some in Hr as [_ <-]. vm_compute. eauto.
  - exists d', [2]. split; [exact Hrun|]. split; [done|].
    vm_compute in Hrun. injection Hrun as <-. by vm_compute.
Defined.

(** ** Renumbering only changes keys *)

#[global] Instance transpose_inj a b : Inj (=) (=) (transpose a b).
Proof. intros x y. unfold transpose. repeat case_decide; congruence. Qed.

Lemma transpose_involutive a b k : transpose a b (transpose a b k) = k.
Proof. unfold transpose. repeat case_decide; congruence. Qed.

Section rekey.
Context {A : Type}.
Implicit Types m : gmap Z A.

Lemma kmap_id_eq m : kmap (M2 := gmap Z) id m = m.
Proof.
  apply map_eq. intros k. apply (lookup_kmap (M2 := gmap Z) id m k).
Qed.

Lemma kmap_kmap (f g : Z → Z) `{!Inj (=) (=) f, !Inj (=) (=) g} m :
  kmap (M2 := gmap Z) g (kmap (M2 := gmap Z) f m) = kmap (M2 := gmap Z) (g ∘ f) m.
Proof.
  apply map_eq. intros k. apply option_eq. intros x.
  rewrite !lookup_kmap_Some by apply _. split.
  - intros (j & -> & (i & -> & Hi)%lookup_kmap_Some); [|apply _]. eauto.
  - intros (i & -> & Hi). exists (f i). split; [done|].
    apply lookup_kmap_Some; [apply _|]. eauto.
Qed.

(** Moving a row to a free key exchanges the two keys. *)
Lemma move_row_kmap m old new x :
  m !! old = Some x → m !! new = None →
  <[new := x]> (delete old m) = kmap (M2 := gmap Z) (transpose old new) m.
Proof.
  intros Hold Hnew. apply map_eq. intros k.
  trans (kmap (M2 := gmap Z) (transpose old new) m
           !! transpose old new (transpose old new k));
    [|by rewrite transpose_involutive].
  rewrite lookup_kmap by apply _. unfold transpose.
  destruct (decide (k = new)) as [->|Hk].
  - rewrite lookup_insert_eq. destruct (decide (new = old)); congruence.
  - rewrite lookup_insert_ne by done. destruct (decide (k = old)) as [->|Hk'].
    + by rewrite lookup_delete_eq.
    + by rewrite lookup_delete_ne.
Qed.

End rekey.

(** Whatever the tables, and whether it ends or is stopped by the primary
    key or by a value that cannot be bound, the loop leaves the rows of
    [resources] under keys renamed by an injective function and the
    reservations with only their [resource_id] changed. *)
Lemma reassign_loop_rekeys ids :
  ∀ index d out,
    ∃ o d' (f g : Z → Z),
      reassign_loop index ids (quiet d out) = (o, quiet d' out)
      ∧ Inj (=) (=) f
      ∧ resources d' = kmap f (resources d)
      ∧ reservations d' = retarget g <$> reservations d
      ∧ reservations_seq d' = reservations_seq d.
Proof.
  induction ids as [|old rest IH]; intros index d out.
  { exists (Returned tt), d, id, id. split; [done|]. split; [apply _|].
    split; [by rewrite kmap_id_eq|]. by rewrite fmap_retarget_id. }
  simpl. unfold bind. rewrite sqlite_call_quiet. unfold Sql.bound.
  destruct (Sql.bind_params [SqlInt index; SqlInt old]) as [e|].
  { exists (Raised e), d, id, id.
    split; [done|]. split; [apply _|]. split; [by rewrite kmap_id_eq|].
    by rewrite fmap_retarget_id. }
  assert (∃ f1 : Z → Z, Inj (=) (=) f1 ∧
            (Sql.update_resources_id index old d =
               inl (Sqlite3Error
                      (IntegrityError "UNIQUE constraint failed: resources.id"))
             ∨ Sql.update_resources_id index old d =
               inr (tt, Database (kmap f1 (resources d)) (reservations d)
                                 (reservations_seq d))))
    as (f1 & Hf1 & Hstep).
  { unfold Sql.update_resources_id. destruct d as [m rs seq]. simpl.
    destruct (m !! old) as [r|] eqn:Hold.
    - case_decide.
      + exists id. split; [apply _|]. right. by rewrite kmap_id_eq.
      + destruct (m !! index) eqn:Hindex.
        * exists id. split; [apply _|]. by left.
        * exists (transpose old index). split; [apply _|]. right.
          by rewrite (move_row_kmap m old index r).
    - exists id. split; [apply _|]. right. by rewrite kmap_id_eq. }
  destruct Hstep as [-> | ->].
  { eexists (Raised _), d, id, id.
    split; [done|]. split; [apply _|]. split; [by rewrite kmap_id_eq|].
    by rewrite fmap_retarget_id. }
  rewrite sqlite_call_quiet. unfold Sql.update_reservations_resource_id.
  cbn [resources reservations reservations_seq].
  destruct (IH (index + 1)
              (Database (kmap f1 (resources d))
                        (Sql.relink index old <$> reservations d)
                        (reservations_seq d)) out)
    as (o & d' & f2 & g2 & Hrun & Hf2 & Hres & Hrsv & Hseq).
  cbn [resources reservations reservations_seq] in *.
  exists o, d', (f2 ∘ f1), (g2 ∘ (λ k, if decide (k = old) then index else k)).
  split; [exact Hrun|]. split; [apply _|].
  split; [by rewrite Hres, kmap_kmap|]. split; [|done].
  rewrite Hrsv, <-map_fmap_compose. apply map_fmap_ext. intros ? r _.
  simpl. by rewrite relink_retarget.
Qed.

(** What [delete_resource] makes of the tables, whether it returns or
    raises, when its argument is a 64-bit integer: the rows of the deleted
    resource are removed and the others rekeyed. *)
Lemma delete_resource_rekeys d out resource_id :
  Sql.int64 resource_id →
  ∃ o d' (f g : Z → Z),
    delete_resource resource_id (quiet d out) = (o, quiet d' out)
    ∧ Inj (=) (=) f
    ∧ resources d' = kmap f (delete resource_id (resources d))
    ∧ reservations d' =
      retarget g <$> filter (λ kr, rsv_resource_id kr.2 ≠ resource_id)
                            (reservations d)
    ∧ reservations_seq d' = reservations_seq d.
Proof.
  intros Hid.
  destruct (reassign_loop_rekeys
              (Sql.ordered_keys (delete resource_id (resources d))) 1
              (Database (delete resource_id (resources d))
                 (filter (λ kr, rsv_resource_id kr.2 ≠ resource_id)
                         (reservations d))
                 (reservations_seq d)) out)
    as (o & d' & f & g & Hloop & Hf & Hres & Hrsv & Hseq).
  cbn [resources reservations reservations_seq] in *.
  assert (∃ o', delete_resource resource_id (quiet d out) = (o', quiet d' out))
    as [o' Hrun].
  { unfold delete_resource, _reassign_ids, bind.
    rewrite sqlite_call_quiet, bound_run by by rewrite bind_params_cons_int.
    cbn [Sql.delete_reservations_of].
    rewrite sqlite_call_quiet, bound_run by by rewrite bind_params_cons_int.
    cbn [Sql.delete_resource_row].
    rewrite !sqlite_call_quiet. simpl. unfold quiet in *. rewrite Hloop.
    destruct o; simpl; eauto. }
  by exists o', d', f, g.
Qed.

(** C10.  In every state SQLite can hold, and whether [delete_resource]
    returns or raises: the rows of [resources] other than the deleted one
    are all still there, each with its name, description and available flag,
    under an id given by an injective renaming [f], and there is no other
    row; the reservations of other resources are all still there under their
    own ids with their user name and date, and there is no other
    reservation. *)
Theorem delete_resource_changes_ids_only
  (d : database) (out : list string) (resource_id : Z) :
  stored d →
  ∃ o d' (f : Z → Z),
    delete_resource resource_id (quiet d out) = (o, quiet d' out)
    ∧ Inj (=) (=) f
    ∧ (∀ k r, k ≠ resource_id → resources d !! k = Some r →
         resources d' !! f k = Some r)
    ∧ (∀ k' r, resources d' !! k' = Some r →
         ∃ k, k' = f k ∧ k ≠ resource_id ∧ resources d !! k = Some r)
    ∧ (∀ rid r, reservations d !! rid = Some r →
         rsv_resource_id r ≠ resource_id →
         ∃ r', reservations d' !! rid = Some r'
               ∧ rsv_user_name r' = rsv_user_name r
               ∧ rsv_date r' = rsv_date r)
    ∧ (∀ rid r', reservations d' !! rid = Some r' →
         ∃ r, reservations d !! rid = Some r
              ∧ rsv_resource_id r ≠ resource_id
              ∧ rsv_user_name r' = rsv_user_name r
              ∧ rsv_date r' = rsv_date r).
Proof.
  intros (Hres64 & Hrsv64 & _).
  destruct (decide (Sql.int64 resource_id)) as [Hid|Hid].
  - destruct (delete_resource_rekeys d out resource_id Hid)
      as (o & d' & f & g & Hrun & Hf & Hres & Hrsv & Hseq).
    exists o, d', f. split; [exact Hrun|]. split; [exact Hf|].
    rewrite Hres, Hrsv. split; [|split; [|split]].
    + intros k r Hk Hr. rewrite lookup_kmap by done. by rewrite lookup_delete_ne.
    + intros k' r (k & -> & Hk)%lookup_kmap_Some; [|done].
      apply lookup_delete_Some in Hk as [? ?]. eauto.
    + intros rid r Hr Hne. rewrite lookup_fmap.
      rewrite (map_lookup_filter_Some_2 _ _ rid r) by done. simpl. eauto.
    + intros rid r'. rewrite lookup_fmap.
      intros (r & [Hr Hne]%map_lookup_filter_Some & ->)%fmap_Some. eauto.
  - eexists _, d, id. split; [by apply delete_resource_overflow|].
    split; [apply _|]. split; [done|]. split; [|split].
    + intros k r Hr. exists k. split; [done|]. split; [|done].
      intros ->. by destruct (Hres64 _ _ Hr).
    + eauto.
    + intros rid r Hr. exists r. split; [done|]. split; [|done].
      intros Heq. destruct (Hrsv64 _ _ Hr) as [_ H64]. by rewrite Heq in H64.
Qed.

Lemma delete_resource_changes_ids_only_witness :
  let d := Database {[1 := Resource "Room A" "a" 0; 2 := Resource "Room B" "b" 0]}
                    {[1 := Reservation 1 "Alice" "2024-01-01";
                      2 := Reservation 2 "Bob" "2024-01-02"]} 2 in
  ∃ o d' (f : Z → Z),
    delete_resource 1 (quiet d []) = (o, quiet d' [])
    ∧ Inj (=) (=) f
    ∧ resources d' !! f 2 = Some (Resource "Room B" "b" 0)
    ∧ ∃ r', reservations d' !! 2 = Some r'
            ∧ rsv_user_name r' = "Bob" ∧ rsv_date r' = "2024-01-02".
Proof.
  intros d.
  destruct (delete_resource_changes_ids_only d [] 1)
    as (o & d' & f & Hrun & Hf & Hkeep & _ & Hrsv & _).
  - by_compute.
  - exists o, d', f. split; [exact Hrun|]. split; [exact Hf|]. split.
    + apply Hkeep; [lia|reflexivity].
    + apply (Hrsv 2 (Reservation 2 "Bob" "2024-01-02")); [reflexivity|].
      simpl. lia.
Defined.

(** ** The ids stay 1..n *)

Lemma is_Some_alter (f : resource → resource) (m : gmap Z resource) i k :
  is_Some (alter f i m !! k) ↔ is_Some (m !! k).
Proof.
  rewrite lookup_alter. case_decide; [subst k|done]. apply fmap_is_Some.
Qed.

(** The [i]-th element of an increasing list of integers that are at least
    [a] is at least [a + i]. *)
Lemma sorted_lookup_ge (l : list Z) a (i : nat) k :
  StronglySorted Z.lt l → Forall (λ k, a ≤ k) l → l !! i = Some k →
  a + Z.of_nat i ≤ k.
Proof.
  intros Hs. revert a i. induction Hs as [|x l Hs IH Hx]; intros a i Hge Hi; [done|].
  apply Forall_cons in Hge as [Hax Hge]. destruct i as [|i]; simpl in Hi.
  - injection Hi as <-. lia.
  - assert (a + 1 + Z.of_nat i ≤ k); [|lia]. apply IH; [|done].
    rewrite Forall_forall in Hx |- *. intros y Hy. specialize (Hx y Hy). lia.
Qed.

Lemma contiguous_add d name description :
  contiguous64 d → contiguous64 (perform (op_add_resource name description) d).
Proof.
  intros (n & Hmax & Hn). simpl. rewrite add_resource_quiet. cbv zeta.
  destruct (next_id_spec (resources d)) as (Hfree & Hempty & Habove & Hnext).
  simpl in *.
  set (new_id := match Sql.max_key (resources d) with
                 | Some k => k + 1 | None => 1 end) in *.
  assert (new_id = Z.of_nat n + 1) as Hnew.
  { destruct n as [|n].
    - rewrite Hempty; [done|]. apply map_empty. intros k.
      apply eq_None_not_Some. rewrite Hn. lia.
    - assert (is_Some (resources d !! Z.of_nat (S n))) as Hlast
        by (apply Hn; lia).
      pose proof (Habove _ Hlast) as Hlt.
      assert (is_Some (resources d !! (new_id - 1))) as Hprev.
      { apply Hnext. intros Hm. rewrite Hm in Hlast.
        destruct Hlast as [x Hx]. by rewrite lookup_empty in Hx. }
      apply Hn in Hprev. lia. }
  rewrite bind_params_cons.
  destruct (decide (Sql.int64 new_id)) as [H64|H64].
  - rewrite bind_param_int by done.
    destruct (Sql.bind_params _); [by exists n|].
    exists (S n). simpl. split; [unfold Sql.int64 in H64; lia|].
    intros k. rewrite lookup_insert_is_Some, Hn. lia.
  - rewrite bind_param_int_overflow by done. by exists n.
Qed.

Lemma contiguous_delete d resource_id :
  contiguous64 d → contiguous64 (perform (op_delete_resource resource_id) d).
Proof.
  intros (n & Hmax & Hn). simpl.
  destruct (decide (Sql.int64 resource_id)) as [Hid|Hid].
  2: { rewrite delete_resource_overflow by done. by exists n. }
  destruct (delete_resource_renumbers d [] resource_id) as (m' & -> & _ & Hdom);
    [done|..].
  { intros k Hk. apply Hn in Hk. lia. }
  eexists. split; [|exact Hdom].
  set (ks := Sql.ordered_keys (delete resource_id (resources d))).
  destruct (decide (List.length ks = 0%nat)) as [->|Hlen]; [lia|].
  destruct (lookup_lt_is_Some_2 ks (pred (List.length ks))) as [k Hk]; [lia|].
  assert (1 + Z.of_nat (pred (List.length ks)) ≤ k) as Hge.
  { apply (sorted_lookup_ge ks); [apply ordered_keys_increasing| |done].
    apply Forall_forall. intros j [r [_ Hr]%lookup_delete_Some]%elem_of_ordered_keys.
    apply Hn. eauto. }
  assert (k ≤ Z.of_nat n).
  { apply list_elem_of_lookup_2, elem_of_ordered_keys in Hk as [r [_ Hr]%lookup_delete_Some].
    apply Hn. eauto. }
  lia.
Qed.

Lemma contiguous_create_reservation d resource_id user_name date :
  contiguous64 d →
  contiguous64 (perform (op_create_reservation resource_id user_name date) d).
Proof.
  intros (n & Hmax & Hn). exists n. split; [done|]. simpl.
  destruct (create_reservation_quiet_db d resource_id user_name date)
    as [-> | (-> & _)]; [done|].
  simpl. intros k. by rewrite is_Some_alter.
Qed.

Lemma contiguous_update d resource_id name description available :
  contiguous64 d →
  contiguous64
    (perform (op_update_resource resource_id name description available) d).
Proof.
  intros (n & Hmax & Hn). exists n. split; [done|]. simpl.
  rewrite update_resource_quiet.
  case_decide; [done|]. destruct (Sql.bind_params _); [done|].
  simpl. intros k. by rewrite is_Some_alter.
Qed.

Lemma reachable_contiguous64 d : reachable d → contiguous64 d.
Proof.
  induction 1 as [|d o Hd IH].
  - exists 0%nat. split; [lia|]. intros k. simpl. rewrite lookup_empty.
    split; [by intros [? ?]|lia].
  - destruct o.
    + by apply contiguous_add.
    + by apply contiguous_delete.
    + by apply contiguous_create_reservation.
    + by apply contiguous_update.
Qed.

(** C5.  In every state reached from the empty database by calls of
    [add_resource], [delete_resource], [create_reservation] and
    [update_resource], the resource ids are exactly 1..n for some n; so they
    are in the state right after any [delete_resource] made there. *)
Theorem reachable_ids_contiguous (d : database) :
  reachable d →
  contiguous d
  ∧ ∀ resource_id, contiguous (perform (op_delete_resource resource_id) d).
Proof.
  intros Hd. apply reachable_contiguous64 in Hd as Hc. split.
  - destruct Hc as (n & _ & Hn). by exists n.
  - intros resource_id.
    destruct (contiguous_delete d resource_id Hc) as (n & _ & Hn). by exists n.
Qed.

Lemma reachable_ids_contiguous_witness :
  contiguous
    (perform (op_delete_resource 1)
       (perform (op_create_reservation 2 "Bob" "2024-01-02")
          (perform (op_add_resource "Room B" "b")
             (perform (op_add_resource "Room A" "a") empty_db)))).
Proof.
  apply reachable_ids_contiguous.
  repeat apply reachable_step. apply reachable_empty.
Defined.

(** ** Releasing a reservation from the admin page *)

Lemma on_db_run {A} (m : M world A) w ui1 ui2 :
  on_db m (Page w ui1 ui2) = ((m w).1, Page (m w).2 ui1 ui2).
Proof. unfold on_db. simpl. by destruct (m w). Qed.

(** Called with the id of a reservation and the [resource_id] that
    reservation has now, both 64-bit integers, [remove_reservation_ui]
    deletes the reservation and sets [available = 1] on the resource it
    refers to; no other row changes. *)
Lemma remove_reservation_ui_current d out ui1 ui2 reservation_id r :
  Sql.int64 reservation_id →
  Sql.int64 (rsv_resource_id r) →
  reservations d !! reservation_id = Some r →
  ∃ ui2',
    remove_reservation_ui reservation_id (rsv_resource_id r)
      (Page (quiet d out) ui1 ui2) =
    (Returned tt,
     Page (quiet (Database (alter (Sql.set_available 1) (rsv_resource_id r)
                                  (resources d))
                           (delete reservation_id (reservations d))
                           (reservations_seq d)) out) ui1 ui2').
Proof.
  intros Hid Hrid _. unfold remove_reservation_ui, bind. rewrite on_db_run.
  rewrite sqlite_call_quiet, bound_run by by rewrite bind_params_cons_int.
  cbn [Sql.delete_reservation_row fst snd].
  rewrite on_db_run, update_resource_quiet.
  rewrite decide_False by (by intros (_ & _ & ?)).
  rewrite bind_params_of by (done || by (intros ? [= <-])).
  cbn [fst snd].
  unfold show_reservations_ui, bind, view_reservations.
  rewrite on_db_run, sqlite_call_quiet.
  cbn [Sql.select_reservations_join fst snd]. unfold set_reservations_ui.
  cbn [resources reservations reservations_seq sys resource_ui].
  rewrite (alter_ext (updated None None (Some 1)) (Sql.set_available 1))
    by (by intros []).
  by eexists.
Qed.

(** C8, in the admin section.  Room A (id 1) and Room B (id 2) exist and Bob
    has reserved Room B; the admin section is drawn, so the Remove button of
    the reservation holds [(1, 2)].  Removing Room A renumbers Room B to id 1
    and the reservation to [resource_id = 1], and redraws the resources
    only.  A click on the Remove button of the reservation now deletes the
    reservation and runs [update_resource(2, available=1)], which finds no
    row: Room B, the resource the reservation referred to, is left with
    [available = 0]. *)
Theorem release_after_renumbering_misses_resource :
  let w0 := quiet empty_db [] in
  let w1 := (add_resource "Room A" "a" w0).2 in
  let w2 := (add_resource "Room B" "b" w1).2 in
  let w3 := (create_reservation 2 "Bob" "2024-01-02" w2).2 in
  let p1 := (admin_section (Page w3 [] [])).2 in
  let p2 := (click_remove_resource 0 p1).2 in
  let p3 := (click_remove_reservation 0 p2).2 in
  (resource_ui p1 = [1; 2] ∧ reservations_ui p1 = [(1, 2)])
  ∧ (resources (db (sys p2)) = {[1 := Resource "Room B" "b" 0]}
     ∧ reservations (db (sys p2)) = {[1 := Reservation 1 "Bob" "2024-01-02"]}
     ∧ resource_ui p2 = [1] ∧ reservations_ui p2 = [(1, 2)])
  ∧ ((click_remove_reservation 0 p2).1 = Returned tt
     ∧ reservations (db (sys p3)) = ∅
     ∧ resources (db (sys p3)) = {[1 := Resource "Room B" "b" 0]}).
Proof. vm_compute. repeat split; reflexivity. Qed.

(** * Further properties *)

(** ** The two views *)

Lemma elem_of_select_resources d k name description available :
  (k, name, description, available) ∈
    omap (λ k, r ← resources d !! k;
               Some (k, res_name r, res_description r, res_available r))
         (Sql.ordered_keys (resources d))
  ↔ resources d !! k = Some (Resource name description available).
Proof.
  rewrite list_elem_of_omap. split.
  - intros (k' & _ & Hk'). destruct (resources d !! k') as [[n' ds' a']|] eqn:Hr;
      simpl in Hk'; [|done]. by injection Hk' as -> -> -> ->.
  - intros Hr. exists k. split; [apply elem_of_ordered_keys; eauto|].
    by rewrite Hr.
Qed.

Lemma select_resources_ids d :
  (λ row : Z * string * string * Z, row.1.1.1) <$>
    omap (λ k, r ← resources d !! k;
               Some (k, res_name r, res_description r, res_available r))
         (Sql.ordered_keys (resources d))
  = Sql.ordered_keys (resources d).
Proof.
  generalize (λ k, proj1 (elem_of_ordered_keys (resources d) k)).
  generalize (Sql.ordered_keys (resources d)).
  induction l as [|k ks IH]; intros Hks; [done|]. simpl.
  destruct (Hks k) as [x Hx]; [by left|]. rewrite Hx. simpl.
  f_equal. apply IH. intros k' Hk'. apply Hks. by right.
Qed.

Lemma elem_of_select_reservations_join d rid k user_name date name :
  (rid, k, user_name, date, name) ∈
    omap (λ k, r ← reservations d !! k;
               res ← resources d !! rsv_resource_id r;
               Some (k, rsv_resource_id r, rsv_user_name r, rsv_date r,
                     res_name res))
         (Sql.ordered_keys (reservations d))
  ↔ reservations d !! rid = Some (Reservation k user_name date)
    ∧ ∃ res, resources d !! k = Some res ∧ res_name res = name.
Proof.
  rewrite list_elem_of_omap. split.
  - intros (rid' & _ & Hrow).
    destruct (reservations d !! rid') as [[k' u' dt']|] eqn:Hr;
      simpl in Hrow; [|done].
    destruct (resources d !! k') as [res|] eqn:Hres; simpl in Hrow; [|done].
    injection Hrow as -> -> -> -> <-. eauto.
  - intros (Hr & res & Hres & <-). exists rid.
    split; [apply elem_of_ordered_keys; eauto|].
    rewrite Hr. simpl. by rewrite Hres.
Qed.



(** ** Renumbering a table whose ids are 1..n *)

Lemma StronglySorted_seqZ m n : StronglySorted Z.lt (seqZ m n).
Proof.
  destruct (decide (n ≤ 0)) as [Hn|Hn]; [rewrite seqZ_nil by done; constructor|].
  replace n with (Z.of_nat (Z.to_nat n)) by lia.
  generalize (Z.to_nat n). clear. intros k. revert m.
  induction k as [|k IH]; intros m.
  - rewrite seqZ_nil by done. constructor.
  - rewrite seqZ_cons by lia. constructor.
    + replace (Z.pred (Z.of_nat (S k))) with (Z.of_nat k) by lia. apply IH.
    + apply Forall_forall. intros x Hx. apply elem_of_seqZ in Hx. lia.
Qed.

(** The ids 1..n without [hole], in increasing order. *)
Lemma ordered_keys_hole {A} (m : gmap Z A) (n hole : Z) :
  1 ≤ hole ≤ n + 1 →
  (∀ k, is_Some (m !! k) ↔ 1 ≤ k ≤ n ∧ k ≠ hole) →
  Sql.ordered_keys m = (seqZ 1 (hole - 1) ++ seqZ (hole + 1) (n - hole))%list.
Proof.
  intros Hhole Hdom.
  apply (StronglySorted_unique_strong Z.lt).
  - intros; lia.
  - apply ordered_keys_increasing.
  - apply StronglySorted_app_2; [|apply StronglySorted_seqZ..].
    intros x1 x2 H1%elem_of_seqZ H2%elem_of_seqZ. lia.
  - apply NoDup_Permutation.
    + apply NoDup_ordered_keys.
    + apply NoDup_app. split; [apply NoDup_seqZ|]. split; [|apply NoDup_seqZ].
      intros x H1%elem_of_seqZ H2%elem_of_seqZ. lia.
    + intros k. rewrite elem_of_ordered_keys, Hdom, elem_of_app, !elem_of_seqZ.
      lia.
Qed.

Lemma lookup_hole (n hole : Z) (i : nat) :
  1 ≤ hole ≤ n + 1 →
  (seqZ 1 (hole - 1) ++ seqZ (hole + 1) (n - hole))%list !! i =
  if decide (Z.of_nat i + 1 < hole) then Some (Z.of_nat i + 1)
  else if decide (Z.of_nat i + 2 ≤ n) then Some (Z.of_nat i + 2) else None.
Proof.
  intros Hhole. case_decide as Hi.
  - rewrite lookup_app_l by (rewrite length_seqZ; lia).
    rewrite lookup_seqZ_lt by lia. f_equal. lia.
  - rewrite lookup_app_r by (rewrite length_seqZ; lia).
    rewrite length_seqZ. case_decide.
    + rewrite lookup_seqZ_lt by lia. f_equal. lia.
    + apply lookup_seqZ_ge. lia.
Qed.

(** Over the ids 1..n without [hole], the loop leaves a reference below
    [hole] as it is and moves a reference above it down by one. *)
Lemma new_ref_hole (n hole k : Z) :
  1 ≤ hole ≤ n + 1 → 1 ≤ k ≤ n → k ≠ hole →
  new_ref 1 (seqZ 1 (hole - 1) ++ seqZ (hole + 1) (n - hole))%list k
  = shifted hole k.
Proof.
  intros Hhole Hk Hne. unfold shifted.
  assert (NoDup (seqZ 1 (hole - 1) ++ seqZ (hole + 1) (n - hole))%list) as Hnd.
  { apply NoDup_app. split; [apply NoDup_seqZ|]. split; [|apply NoDup_seqZ].
    intros x H1%elem_of_seqZ H2%elem_of_seqZ. lia. }
  case_decide as Hlt.
  - rewrite (new_ref_position 1 _ (Z.to_nat (k - 1)) k Hnd); [lia|].
    rewrite lookup_hole by done. rewrite decide_True by lia. f_equal. lia.
  - rewrite (new_ref_position 1 _ (Z.to_nat (k - 2)) k Hnd); [lia|].
    rewrite lookup_hole by done. rewrite decide_False by lia.
    rewrite decide_True by lia. f_equal. lia.
Qed.

Lemma new_ref_outside (n hole k : Z) :
  1 ≤ hole ≤ n + 1 →
  ¬ (1 ≤ k ≤ n ∧ k ≠ hole) →
  new_ref 1 (seqZ 1 (hole - 1) ++ seqZ (hole + 1) (n - hole))%list k = k.
Proof.
  intros Hhole Hk. apply new_ref_not_in.
  rewrite elem_of_app, !elem_of_seqZ. lia.
Qed.

(** [delete_resource] of a 64-bit id on a table whose ids are 1..n, all of
    64 bits, with [hole] the id that goes ([n + 1] when no row goes): every
    row below [hole] stays, every row above it moves down by one, and the
    references follow. *)
Lemma delete_resource_shift d out resource_id (n : nat) :
  Sql.int64 resource_id →
  Z.of_nat n ≤ 9223372036854775807 →
  (∀ k, is_Some (resources d !! k) ↔ 1 ≤ k ≤ Z.of_nat n) →
  let hole := if decide (1 ≤ resource_id ≤ Z.of_nat n) then resource_id
              else Z.of_nat n + 1 in
  ∃ m',
    delete_resource resource_id (quiet d out) =
      (Returned tt,
       quiet (Database m'
                (retarget (λ k, if decide (1 ≤ k ≤ Z.of_nat n ∧ k ≠ hole)
                                then shifted hole k else k) <$>
                   filter (λ kr, rsv_resource_id kr.2 ≠ resource_id)
                          (reservations d))
                (reservations_seq d)) out)
    ∧ ∀ k, m' !! k = if decide (k < hole) then resources d !! k
                     else resources d !! (k + 1).
Proof.
  intros Hid Hmax Hn hole.
  assert (1 ≤ hole ≤ Z.of_nat n + 1) as Hhole by (unfold hole; case_decide; lia).
  assert (∀ k, is_Some (delete resource_id (resources d) !! k)
               ↔ 1 ≤ k ≤ Z.of_nat n ∧ k ≠ hole) as Hdom.
  { intros k. unfold is_Some. setoid_rewrite lookup_delete_Some.
    fold (is_Some (resources d !! k)).
    split.
    - intros [r [Hne Hr]]. assert (1 ≤ k ≤ Z.of_nat n) by (apply Hn; eauto).
      split; [done|]. unfold hole. case_decide; lia.
    - intros [Hk Hne]. destruct (proj2 (Hn k) Hk) as [r Hr]. exists r.
      split; [|done]. unfold hole in Hne. case_decide; lia. }
  destruct (delete_resource_renumbers d out resource_id)
    as (m' & Hrun & Hat & Hm'); [done|..].
  { intros k Hk. apply Hn in Hk. lia. }
  rewrite (ordered_keys_hole _ (Z.of_nat n) hole Hhole Hdom) in *.
  exists m'. split.
  - rewrite Hrun. do 3 f_equal. apply map_fmap_ext. intros rid r _.
    unfold retarget. f_equal. case_decide as Hk.
    + destruct Hk. by apply new_ref_hole.
    + by apply new_ref_outside.
  - intros k.
    destruct (decide (1 ≤ k ≤ Z.of_nat
                (List.length (seqZ 1 (hole - 1) ++ seqZ (hole + 1) (Z.of_nat n - hole))%list)))
      as [Hk|Hk].
    + destruct (lookup_lt_is_Some_2
                  (seqZ 1 (hole - 1) ++ seqZ (hole + 1) (Z.of_nat n - hole))%list
                  (Z.to_nat (k - 1))) as [k0 Hk0]; [lia|].
      pose proof (Hat _ _ Hk0) as Hrow.
      replace (Z.of_nat (Z.to_nat (k - 1)) + 1) with k in Hrow by lia.
      rewrite lookup_hole in Hk0 by done.
      replace (Z.of_nat (Z.to_nat (k - 1)) + 1) with k in Hk0 by lia.
      replace (Z.of_nat (Z.to_nat (k - 1)) + 2) with (k + 1) in Hk0 by lia.
      rewrite Hrow. case_decide; [congruence|]. case_decide; congruence.
    + assert (m' !! k = None) as ->.
      { apply eq_None_not_Some. rewrite Hm'. done. }
      rewrite length_app, !length_seqZ in Hk.
      symmetry. case_decide; apply eq_None_not_Some; rewrite Hn; lia.
Qed.

(** ** References between the tables *)

Lemma retarget_unchanged (g : Z → Z) (rs : gmap Z reservation) :
  (∀ rid r, rs !! rid = Some r → g (rsv_resource_id r) = rsv_resource_id r) →
  retarget g <$> rs = rs.
Proof.
  intros Hg. rewrite <-(map_fmap_id rs) at 2. apply map_fmap_ext.
  intros rid [k u dt] Hr. unfold retarget. simpl. f_equal. apply (Hg _ _ Hr).
Qed.

Lemma database_eta d :
  Database (resources d) (reservations d) (reservations_seq d) = d.
Proof. by destruct d. Qed.

Lemma references_add d name description :
  references_exist d →
  references_exist (perform (op_add_resource name description) d).
Proof.
  intros Hfk rid r. simpl. rewrite add_resource_quiet. cbv zeta.
  destruct (Sql.bind_params _); [apply Hfk|]. simpl. intros Hr.
  apply lookup_insert_is_Some'. right. by apply (Hfk rid).
Qed.

Lemma references_delete d resource_id :
  contiguous64 d → references_exist d →
  references_exist (perform (op_delete_resource resource_id) d).
Proof.
  intros (n & Hmax & Hn) Hfk rid r'. simpl.
  destruct (decide (Sql.int64 resource_id)) as [H64|H64].
  2: { rewrite delete_resource_overflow by done. apply Hfk. }
  destruct (delete_resource_shift d [] resource_id n H64 Hmax Hn)
    as (m' & -> & Hm').
  simpl. rewrite lookup_fmap. intros (r & [Hr Hid]%map_lookup_filter_Some & ->)%fmap_Some.
  simpl in *. pose proof (Hfk _ _ Hr) as Hres. pose proof Hres as Hk%Hn.
  rewrite Hm'. unfold shifted.
  repeat case_decide; try lia; try done.
  all: try (replace (rsv_resource_id r - 1 + 1) with (rsv_resource_id r) by lia; done).
  all: apply Hn; lia.
Qed.

Lemma references_create d resource_id user_name date :
  references_exist d →
  references_exist (perform (op_create_reservation resource_id user_name date) d).
Proof.
  intros Hfk. simpl.
  destruct (create_reservation_quiet_db d resource_id user_name date)
    as [-> | (-> & _ & _ & r & Hr & _)]; [done|].
  unfold reserved. intros rid rv Hrv. simpl in *. rewrite is_Some_alter.
  apply lookup_insert_Some in Hrv as [[_ <-]|[_ Hrv]]; simpl; eauto.
Qed.

Lemma references_update d resource_id name description available :
  references_exist d →
  references_exist
    (perform (op_update_resource resource_id name description available) d).
Proof.
  intros Hfk. simpl. rewrite update_resource_quiet.
  case_decide; [done|]. destruct (Sql.bind_params _); [done|].
  intros rid rv Hrv. simpl in *.
  rewrite is_Some_alter. eauto.
Qed.

Lemma reachable_invariant d :
  reachable d → contiguous64 d ∧ references_exist d.
Proof.
  intros Hd. split; [by apply reachable_contiguous64|].
  induction Hd as [|d o Hd Hfk].
  - intros rid r Hr. simpl in Hr. by rewrite lookup_empty in Hr.
  - apply reachable_contiguous64 in Hd.
    destruct o;
      auto using references_add, references_delete, references_create,
        references_update.
Qed.

(** X3.  In every state reached from the empty database by calls of
    [add_resource], [delete_resource], [create_reservation] and
    [update_resource], each reservation refers to a resource that exists. *)
Theorem reachable_references_exist (d : database) :
  reachable d → references_exist d.
Proof. intros Hd. by apply reachable_invariant. Qed.

Lemma reachable_references_exist_witness :
  references_exist
    (perform (op_delete_resource 1)
       (perform (op_create_reservation 2 "Bob" "2024-01-02")
          (perform (op_add_resource "Room B" "b")
             (perform (op_add_resource "Room A" "a") empty_db)))).
Proof.
  apply reachable_references_exist.
  repeat apply reachable_step. apply reachable_empty.
Defined.

(** The closed form of the renumbering in a reachable state. *)
Lemma delete_resource_shifts_ids_down_aux
  (d : database) (out : list string) (resource_id : Z) :
  reachable d →
  is_Some (resources d !! resource_id) →
  ∃ d',
    delete_resource resource_id (quiet d out) = (Returned tt, quiet d' out)
    ∧ (∀ k, k < resource_id → resources d' !! k = resources d !! k)
    ∧ (∀ k, resource_id ≤ k → resources d' !! k = resources d !! (k + 1))
    ∧ (∀ rid, reservations d' !! rid =
         match reservations d !! rid with
         | Some r =>
             if decide (rsv_resource_id r = resource_id) then None
             else Some (Reservation (shifted resource_id (rsv_resource_id r))
                                    (rsv_user_name r) (rsv_date r))
         | None => None
         end)
    ∧ reservations_seq d' = reservations_seq d.
Proof.
  intros [(n & Hmax & Hn) Hfk]%reachable_invariant Hid. apply Hn in Hid.
  destruct (delete_resource_shift d out resource_id n) as (m' & Hrun & Hm');
    [unfold Sql.int64; lia|done..|].
  rewrite decide_True in Hrun, Hm' by done.
  eexists. split; [exact Hrun|]. simpl.
  split; [|split; [|split; [|done]]].
  - intros k Hk. by rewrite Hm', decide_True.
  - intros k Hk. rewrite Hm', decide_False by lia. done.
  - intros rid. rewrite lookup_fmap.
    destruct (reservations d !! rid) as [r|] eqn:Hr.
    + case_decide as Hk.
      * rewrite (proj2 (map_lookup_filter_None _ _ rid)); [done|].
        right. intros r0 Hr0. simpl. congruence.
      * rewrite (map_lookup_filter_Some_2 _ _ rid r) by done. simpl.
        unfold retarget. do 2 f_equal. rewrite decide_True; [done|].
        split; [|done]. apply Hn. by apply (Hfk rid).
    + rewrite (proj2 (map_lookup_filter_None _ _ rid)); [done|]. by left.
Qed.

(** X4.  In a reachable state, [delete_resource(id)] for an id of the table
    returns and shifts the ids above [id] down by one: a resource with a
    smaller id keeps it, the resource that had id [k + 1 > id] is now under
    [k]; the reservations of resource [id] are gone and each other
    reservation follows its resource, with its own id, user name and date
    kept. *)
Theorem delete_resource_shifts_ids_down
  (d : database) (out : list string) (resource_id : Z) :
  reachable d →
  is_Some (resources d !! resource_id) →
  ∃ d',
    delete_resource resource_id (quiet d out) = (Returned tt, quiet d' out)
    ∧ (∀ k, k < resource_id → resources d' !! k = resources d !! k)
    ∧ (∀ k, resource_id ≤ k → resources d' !! k = resources d !! (k + 1))
    ∧ (∀ rid, reservations d' !! rid =
         match reservations d !! rid with
         | Some r =>
             if decide (rsv_resource_id r = resource_id) then None
             else Some (Reservation (shifted resource_id (rsv_resource_id r))
                                    (rsv_user_name r) (rsv_date r))
         | None => None
         end)
    ∧ reservations_seq d' = reservations_seq d.
Proof. apply delete_resource_shifts_ids_down_aux. Qed.

Lemma delete_resource_shifts_ids_down_witness :
  ∃ d',
    delete_resource 1
      (quiet (perform (op_create_reservation 2 "Bob" "2024-01-02")
                (perform (op_add_resource "Room B" "b")
                   (perform (op_add_resource "Room A" "a") empty_db))) [])
    = (Returned tt, quiet d' [])
    ∧ resources d' !! 1 = Some (Resource "Room B" "b" 0)
    ∧ reservations d' !! 1 = Some (Reservation 1 "Bob" "2024-01-02").
Proof.
  destruct (delete_resource_shifts_ids_down
              (perform (op_create_reservation 2 "Bob" "2024-01-02")
                 (perform (op_add_resource "Room B" "b")
                    (perform (op_add_resource "Room A" "a") empty_db))) [] 1)
    as (d' & Hrun & _ & Hup & Hrsv & _).
  - repeat apply reachable_step. apply reachable_empty.
  - vm_compute. eauto.
  - exists d'. split; [exact Hrun|]. split.
    + rewrite (Hup 1) by lia. reflexivity.
    + rewrite (Hrsv 1). reflexivity.
Defined.

(** X5.  In a reachable state, [delete_resource] with a 64-bit integer that
    is the id of no resource returns and leaves the tables exactly as they
    were. *)
Theorem delete_resource_missing_id_changes_nothing
  (d : database) (out : list string) (resource_id : Z) :
  reachable d →
  Sql.int64 resource_id →
  resources d !! resource_id = None →
  delete_resource resource_id (quiet d out) = (Returned tt, quiet d out).
Proof.
  intros [(n & Hmax & Hn) Hfk]%reachable_invariant H64 Hid.
  destruct (delete_resource_shift d out resource_id n H64 Hmax Hn)
    as (m' & Hrun & Hm').
  assert (¬ 1 ≤ resource_id ≤ Z.of_nat n) as Hout.
  { intros Hin%Hn. rewrite Hid in Hin. by destruct Hin. }
  rewrite decide_False in Hrun, Hm' by done.
  rewrite Hrun. do 2 f_equal.
  etrans; [|apply (database_eta d)]. f_equal.
  - apply map_eq. intros k. rewrite Hm'. case_decide; [done|].
    transitivity (@None resource); [|symmetry];
      apply eq_None_not_Some; rewrite Hn; lia.
  - rewrite map_filter_id.
    + apply retarget_unchanged. intros rid r Hr.
      pose proof (Hfk _ _ Hr) as Hk%Hn. unfold shifted.
      repeat case_decide; lia.
    + intros rid r Hr. simpl. intros Heq. pose proof (Hfk _ _ Hr) as Hk.
      rewrite Heq, Hid in Hk. by destruct Hk.
Qed.

Lemma delete_resource_missing_id_changes_nothing_witness :
  delete_resource 7
    (quiet (perform (op_create_reservation 1 "Alice" "2024-01-01")
              (perform (op_add_resource "Room A" "a") empty_db)) [])
  = (Returned tt,
     quiet (perform (op_create_reservation 1 "Alice" "2024-01-01")
              (perform (op_add_resource "Room A" "a") empty_db)) []).
Proof.
  apply delete_resource_missing_id_changes_nothing.
  - repeat apply reachable_step. apply reachable_empty.
  - unfold Sql.int64. lia.
  - reflexivity.
Defined.

(** X6.  In a reachable state in which the largest 64-bit integer is not in
    use as a resource id, adding a resource whose name and description fit a
    row and then deleting it gives back the tables as they were before it
    was added: the new id is the largest, so no other resource is renumbered
    and no reservation is touched. *)
Theorem add_then_delete_restores
  (d : database) (out : list string) (name description : string) :
  reachable d →
  resources d !! 9223372036854775807 = None →
  Sql.fits [name; description] →
  ∃ new_id d1,
    add_resource name description (quiet d out) = (Returned tt, quiet d1 out)
    ∧ resources d1 !! new_id = Some (Resource name description 1)
    ∧ resources d !! new_id = None
    ∧ delete_resource new_id (quiet d1 out) = (Returned tt, quiet d out).
Proof.
  intros Hd Hfull Hfits. pose proof Hd as [(n & Hmax & Hn) Hfk]%reachable_invariant.
  pose proof (reachable_step d (op_add_resource name description) Hd) as Hd1.
  simpl in Hd1. rewrite add_resource_fits in *; [|try done..].
  2,3: intros k Hk%Hn; unfold Sql.int64; lia.
  simpl in Hd1.
  destruct (next_id_spec (resources d)) as (Hfree & _ & Habove & _).
  simpl in *.
  set (new_id := match Sql.max_key (resources d) with
                 | Some k => k + 1 | None => 1 end) in *.
  exists new_id. eexists. split; [done|]. simpl.
  split; [apply lookup_insert_eq|]. split; [done|].
  match type of Hd1 with reachable ?x => set (d1 := x) in * end.
  destruct (delete_resource_shifts_ids_down_aux d1 out new_id Hd1)
    as (d' & Hrun & Hlow & Hup & Hrsv & Hseq).
  { unfold d1. simpl. by rewrite lookup_insert_eq. }
  rewrite Hrun. do 2 f_equal.
  etrans; [symmetry; apply (database_eta d')|].
  etrans; [|apply (database_eta d)]. f_equal.
  - apply map_eq. intros k. destruct (decide (k < new_id)).
    + rewrite Hlow by done. unfold d1. simpl. apply lookup_insert_ne. lia.
    + rewrite Hup by lia. unfold d1. simpl. rewrite lookup_insert_ne by lia.
      transitivity (@None resource); [|symmetry]; apply eq_None_not_Some;
        intros Hk%Habove; lia.
  - apply map_eq. intros rid. rewrite Hrsv. unfold d1. simpl.
    destruct (reservations d !! rid) as [[k u dt]|] eqn:Hr; [|done].
    pose proof (Hfk _ _ Hr) as Hk%Habove. simpl in *.
    rewrite decide_False by lia. unfold shifted. by rewrite decide_True by lia.
  - by rewrite Hseq.
Qed.

Lemma add_then_delete_restores_witness :
  ∃ new_id d1,
    add_resource "Room B" "b"
      (quiet (perform (op_create_reservation 1 "Alice" "2024-01-01")
                (perform (op_add_resource "Room A" "a") empty_db)) [])
    = (Returned tt, quiet d1 [])
    ∧ new_id = 2
    ∧ delete_resource new_id (quiet d1 [])
      = (Returned tt,
         quiet (perform (op_create_reservation 1 "Alice" "2024-01-01")
                  (perform (op_add_resource "Room A" "a") empty_db)) []).
Proof.
  destruct (add_then_delete_restores
              (perform (op_create_reservation 1 "Alice" "2024-01-01")
                 (perform (op_add_resource "Room A" "a") empty_db))
              [] "Room B" "b")
    as (new_id & d1 & Hadd & Hnew & Hfree & Hdel).
  - repeat apply reachable_step. apply reachable_empty.
  - vm_compute. reflexivity.
  - split; [repeat constructor|]. vm_compute. discriminate.
  - exists new_id, d1. split; [exact Hadd|]. split; [|exact Hdel].
    vm_compute in Hadd. injection Hadd as <-.
    destruct (decide (new_id = 2)) as [|Hne]; [done|].
    vm_compute in Hnew.
    destruct (decide (new_id = 1)) as [->|Hne1]; [by vm_compute in Hfree|].
    exfalso. revert Hnew.
    change (({[1 := Resource "Room A" "a" 0; 2 := Resource "Room B" "b" 1]}
               : gmap Z resource) !! new_id ≠ Some (Resource "Room B" "b" 1)).
    rewrite lookup_insert_ne by done. rewrite lookup_singleton_ne by done. done.
Defined.

(** ** [update_resource] and [create_reservation]: what they leave alone *)

(** The cases of a run of [create_reservation]: what each binding raises,
    what the library has pending, whether the resource is there and free,
    and whether an id is left. *)
Ltac run_reservation d resource_id :=
  repeat (simpl;
    match goal with
    | |- context [match Sql.bind_param ?v with _ => _ end] =>
        destruct (Sql.bind_param v) as [[?|?|]|]
    | |- context [match ?pe with [] => _ | _ :: _ => _ end] =>
        is_var pe; destruct pe as [|[?|] ?]
    | |- context [resources d !! resource_id] =>
        destruct (resources d !! resource_id) as [?|]
    | |- context [decide ?P] => destruct (decide P)
    end).

(** X8.  When at least one field is supplied, the id and the flag supplied
    are 64-bit integers and each text supplied fits a row, but no resource
    has the given id, [update_resource] returns without any error and the
    tables are exactly what they were: the missing id is not reported. *)
Theorem update_resource_missing_id_is_silent
  (d : database) (out : list string) (resource_id : Z)
  (name description : option string) (available : option Z) :
  resources d !! resource_id = None →
  ¬ nothing_supplied name description available →
  Sql.int64 resource_id →
  (∀ a, available = Some a → Sql.int64 a) →
  (∀ s, name = Some s → Sql.fits [s]) →
  (∀ s, description = Some s → Sql.fits [s]) →
  update_resource resource_id name description available (quiet d out)
  = (Returned tt, quiet d out).
Proof.
  intros Hid Hsup H64 Ha Hn Hd.
  rewrite update_resource_quiet, decide_False by done.
  rewrite bind_params_of by done.
  rewrite alter_id' by done. by rewrite database_eta.
Qed.

Lemma update_resource_missing_id_is_silent_witness :
  update_resource 5 (Some "Hall") None (Some 0)
    (quiet (Database {[1 := Resource "Room A" "a" 1]} ∅ 0) [])
  = (Returned tt, quiet (Database {[1 := Resource "Room A" "a" 1]} ∅ 0) []).
Proof.
  apply update_resource_missing_id_is_silent.
  - reflexivity.
  - intros (H & _). vm_compute in H. discriminate H.
  - unfold Sql.int64. lia.
  - intros a [= <-]. unfold Sql.int64. lia.
  - intros s [= <-]. split; [repeat constructor|]. vm_compute. discriminate.
  - intros s [=].
Defined.

(** X7.  Whatever the tables, the arguments and the failures of the
    library, [create_reservation] keeps every reservation there was and adds
    at most one, for the given resource, user and date; it adds or removes no
    resource, changes no name or description, and the only flag it may
    change is that of the given resource, to 0. *)
Theorem create_reservation_only_adds
  (w : world) (resource_id : Z) (user_name date : string) :
  let w' := (create_reservation resource_id user_name date w).2 in
  (reservations (db w') = reservations (db w)
   ∨ ∃ k, reservations (db w) !! k = None
          ∧ reservations (db w') =
            <[k := Reservation resource_id user_name date]> (reservations (db w)))
  ∧ (resources (db w') = resources (db w)
     ∨ resources (db w') =
       alter (Sql.set_available 0) resource_id (resources (db w))).
Proof.
  destruct w as [d pe out].
  pose proof (next_reservation_id_fresh d) as Hfresh.
  unfold create_reservation, try_except, create_reservation_try, bind, commit,
    sqlite_call, Sql.bound, Sql.insert_reservation.
  rewrite !bind_params_cons. change (Sql.bind_params []) with (@None exception).
  destruct (negb (Py.truthy (Py.strip user_name))); simpl; [by auto|].
  run_reservation d resource_id;
    (split;
     [first [by left | right; eexists; split; [exact Hfresh|done]]
     |first [by left | by right]]).
Qed.

(** ** The available flag and the reservations *)

Lemma reachable_by_booking_reachable d : reachable_by_booking d → reachable d.
Proof. induction 1; [apply reachable_empty|by apply reachable_step..]. Qed.

Lemma flags_add d name description :
  references_exist d → flags_match_reservations d →
  flags_match_reservations (perform (op_add_resource name description) d).
Proof.
  intros Hfk Hfl k r. simpl. rewrite add_resource_quiet. cbv zeta.
  destruct (Sql.bind_params _); [apply Hfl|]. simpl.
  destruct (next_id_spec (resources d)) as (Hfree & _). simpl in Hfree.
  intros [[<- <-]|[Hne Hr]]%lookup_insert_Some.
  - left. split; [done|]. intros rid rv Hrv Heq. simpl in *.
    pose proof (Hfk _ _ Hrv) as Hk. rewrite Heq, Hfree in Hk. by destruct Hk.
  - destruct (Hfl k r Hr) as [[Ha Hun]|[Ha Hone]]; [by left|by right].
Qed.

Lemma flags_create d resource_id user_name date :
  flags_match_reservations d →
  flags_match_reservations
    (perform (op_create_reservation resource_id user_name date) d).
Proof.
  intros Hfl. simpl.
  destruct (create_reservation_quiet_db d resource_id user_name date)
    as [-> | (-> & _ & _ & r0 & Hr0 & Ha0)]; [done|].
  unfold reserved.
  pose proof (next_reservation_id_fresh d) as Hfresh.
  destruct (Hfl _ _ Hr0) as [[_ Hun0]|[? _]]; [|done].
  intros k r Hr. simpl in Hr.
  destruct (decide (k = resource_id)) as [->|Hk].
  - rewrite lookup_alter_eq, Hr0 in Hr. injection Hr as <-.
    right. split; [done|]. exists (Sql.next_reservation_id d). split.
    + eexists. simpl. split; [apply lookup_insert_eq|done].
    + intros rid' rv'. simpl.
      intros [[<- _]|[_ Hrv']]%lookup_insert_Some Heq; [done|].
      by destruct (Hun0 _ _ Hrv').
  - rewrite lookup_alter_ne in Hr by done.
    destruct (Hfl k r Hr) as [[Ha Hun]|[Ha (rid & (rv & Hrv & Hrk) & Huniq)]].
    + left. split; [done|]. intros rid rv. simpl.
      intros [[_ <-]|[_ Hrv]]%lookup_insert_Some; simpl; [done|]. by eapply Hun.
    + right. split; [done|]. exists rid. split.
      * exists rv. simpl. split; [|done]. rewrite lookup_insert_ne; [done|].
        intros <-. congruence.
      * intros rid' rv'. simpl.
        intros [[_ <-]|[_ Hrv']]%lookup_insert_Some; simpl; [done|].
        by apply Huniq.
Qed.

Lemma flags_delete d resource_id :
  contiguous64 d → references_exist d → flags_match_reservations d →
  flags_match_reservations (perform (op_delete_resource resource_id) d).
Proof.
  intros (n & Hmax & Hn) Hfk Hfl. simpl.
  destruct (decide (Sql.int64 resource_id)) as [H64|H64].
  2: { by rewrite delete_resource_overflow. }
  destruct (delete_resource_shift d [] resource_id n H64 Hmax Hn)
    as (m' & -> & Hm').
  simpl. set (hole := if decide (1 ≤ resource_id ≤ Z.of_nat n) then resource_id
                      else Z.of_nat n + 1) in *.
  set (g := λ k, if decide (1 ≤ k ≤ Z.of_nat n ∧ k ≠ hole)
                 then shifted hole k else k).
  set (rs' := retarget g <$>
                filter (λ kr, rsv_resource_id kr.2 ≠ resource_id) (reservations d)).
  assert (∀ rid rv', rs' !! rid = Some rv' ↔
            ∃ rv, reservations d !! rid = Some rv
                  ∧ rsv_resource_id rv ≠ resource_id ∧ rv' = retarget g rv) as Hrs'.
  { intros rid rv'. unfold rs'. rewrite lookup_fmap, fmap_Some. split.
    - intros (rv & [Hrv Hne]%map_lookup_filter_Some & ->). eauto.
    - intros (rv & Hrv & Hne & ->). exists rv. split; [|done].
      by apply map_lookup_filter_Some. }
  intros k' r Hr'. simpl in Hr'. rewrite Hm' in Hr'.
  set (k := if decide (k' < hole) then k' else k' + 1) in *.
  assert (resources d !! k = Some r) as Hr by (unfold k; by case_decide).
  assert (1 ≤ k ≤ Z.of_nat n) as Hkn by (apply Hn; eauto).
  assert (k ≠ hole) as Hkh by (unfold k; case_decide; lia).
  assert (k ≠ resource_id) as Hkid by (unfold hole in Hkh; case_decide; lia).
  assert (g k = k') as Hgk.
  { unfold g, shifted, k in *. repeat case_decide; lia. }
  assert (∀ rid rv, reservations d !! rid = Some rv →
            rsv_resource_id rv ≠ resource_id →
            g (rsv_resource_id rv) = k' → rsv_resource_id rv = k) as Hinj.
  { intros rid rv Hrv Hne Hg. pose proof (Hfk _ _ Hrv) as Hin%Hn.
    unfold g, shifted, k, hole in *. repeat case_decide; lia. }
  destruct (Hfl k r Hr) as [[Ha Hun]|[Ha (rid & (rv & Hrv & Hrk) & Huniq)]].
  - left. split; [done|]. intros rid rv'. simpl.
    intros (rv & Hrv & Hne & ->)%Hrs'. simpl. intros Hg.
    apply (Hun _ _ Hrv). by eapply Hinj.
  - right. split; [done|]. exists rid. split.
    + exists (retarget g rv). simpl. split.
      * apply Hrs'. exists rv. split; [done|]. split; [congruence|done].
      * by rewrite Hrk.
    + intros rid' rv'. simpl.
      intros (rv0 & Hrv0 & Hne & ->)%Hrs'. simpl. intros Hg.
      apply (Huniq _ _ Hrv0). by eapply Hinj.
Qed.

Lemma booking_invariant d :
  reachable_by_booking d → flags_match_reservations d.
Proof.
  induction 1 as [|d name description Hd IH|d resource_id Hd IH
                  |d resource_id user_name date Hd IH].
  - intros k r Hr. simpl in Hr. by rewrite lookup_empty in Hr.
  - apply reachable_by_booking_reachable, reachable_invariant in Hd as [? ?].
    by apply flags_add.
  - apply reachable_by_booking_reachable, reachable_invariant in Hd as [? ?].
    by apply flags_delete.
  - by apply flags_create.
Qed.

(** X9.  In every state reached from the empty database by calls of
    [add_resource], [delete_resource] and [create_reservation] alone, the
    available flag of each resource is 1 or 0: 1 when no reservation refers
    to the resource, 0 when exactly one does.  So no resource has two
    reservations. *)
Theorem booking_keeps_flags_and_reservations_in_step (d : database) :
  reachable_by_booking d →
  flags_match_reservations d
  ∧ ∀ rid1 rid2 r1 r2,
      reservations d !! rid1 = Some r1 → reservations d !! rid2 = Some r2 →
      rsv_resource_id r1 = rsv_resource_id r2 → rid1 = rid2.
Proof.
  intros Hd. pose proof (booking_invariant d Hd) as Hfl. split; [done|].
  intros rid1 rid2 r1 r2 H1 H2 Heq.
  apply reachable_by_booking_reachable, reachable_invariant in Hd as [_ Hfk].
  destruct (Hfk _ _ H1) as [r Hr].
  destruct (Hfl _ _ Hr) as [[_ Hun]|[_ (rid & _ & Huniq)]].
  - by destruct (Hun _ _ H1).
  - rewrite (Huniq _ _ H1 eq_refl). symmetry. apply (Huniq _ _ H2). congruence.
Qed.

Lemma booking_keeps_flags_and_reservations_in_step_witness :
  flags_match_reservations
    (perform (op_delete_resource 1)
       (perform (op_create_reservation 2 "Bob" "2024-01-02")
          (perform (op_add_resource "Room B" "b")
             (perform (op_add_resource "Room A" "a") empty_db)))).
Proof.
  apply booking_keeps_flags_and_reservations_in_step.
  apply booking_delete, booking_create, booking_add, booking_add, booking_empty.
Defined.

(** ** The two columns of the admin section *)

Lemma show_reservations_ui_quiet d out ui1 ui2 :
  show_reservations_ui (Page (quiet d out) ui1 ui2) =
  (Returned tt,
   Page (quiet d out) ui1
     ((λ res : Z * Z * string * string * string, (res.1.1.1.1, res.1.1.1.2)) <$>
        omap (λ k, r ← reservations d !! k;
                   res ← resources d !! rsv_resource_id r;
                   Some (k, rsv_resource_id r, rsv_user_name r, rsv_date r,
                         res_name res))
             (Sql.ordered_keys (reservations d)))).
Proof.
  unfold show_reservations_ui, bind, view_reservations.
  by rewrite on_db_run, sqlite_call_quiet.
Qed.

Lemma show_resource_ui_quiet d out ui1 ui2 :
  show_resource_ui (Page (quiet d out) ui1 ui2) =
  (Returned tt, Page (quiet d out) (Sql.ordered_keys (resources d)) ui2).
Proof.
  unfold show_resource_ui, bind, view_resources.
  rewrite on_db_run, sqlite_call_quiet. unfold Sql.select_resources.
  cbn [fst snd]. unfold set_resource_ui. cbn [sys reservations_ui].
  by rewrite select_resources_ids.
Qed.

(** X10.  In a state SQLite can hold, right after the reservations column
    is drawn, the Remove button of each of its rows holds the id of a
    reservation of the table and the id of the resource that reservation
    refers to, and a click on it deletes that reservation and sets the
    available flag of that resource to 1, leaving every other row as it
    was. *)
Theorem click_on_fresh_row_releases
  (d : database) (out : list string) (ui1 : list Z) (ui2 : list (Z * Z))
  (n : nat) (rid res_id : Z) :
  stored d →
  let p := (show_reservations_ui (Page (quiet d out) ui1 ui2)).2 in
  reservations_ui p !! n = Some (rid, res_id) →
  ∃ r res ui2',
    reservations d !! rid = Some r
    ∧ rsv_resource_id r = res_id
    ∧ resources d !! res_id = Some res
    ∧ click_remove_reservation n p =
      (Returned tt,
       Page (quiet (Database (alter (Sql.set_available 1) res_id (resources d))
                             (delete rid (reservations d))
                             (reservations_seq d)) out) ui1 ui2').
Proof.
  intros (_ & Hrsv64 & _).
  rewrite show_reservations_ui_quiet. cbn [snd reservations_ui].
  intros Hn. pose proof (list_elem_of_lookup_2 _ _ _ Hn) as Hin.
  apply list_elem_of_fmap in Hin as ([[[[rid' k] u] dt] nm] & Heq & Hrow).
  simpl in Heq. injection Heq as <- <-.
  apply elem_of_select_reservations_join in Hrow as (Hr & res & Hres & _).
  destruct (remove_reservation_ui_current d out ui1
              ((λ res : Z * Z * string * string * string,
                  (res.1.1.1.1, res.1.1.1.2)) <$>
               omap (λ k, r ← reservations d !! k;
                          res ← resources d !! rsv_resource_id r;
                          Some (k, rsv_resource_id r, rsv_user_name r, rsv_date r,
                                res_name res))
                    (Sql.ordered_keys (reservations d)))
              rid (Reservation res_id u dt)) as [ui2' Hrun];
    [apply (Hrsv64 _ _ Hr)..|done|].
  exists (Reservation res_id u dt), res, ui2'.
  split; [done|]. split; [done|]. split; [done|].
  unfold click_remove_reservation. cbn [reservations_ui]. rewrite Hn.
  exact Hrun.
Qed.

Lemma click_on_fresh_row_releases_witness :
  ∃ r res ui2',
    reservations
      (Database {[1 := Resource "Room A" "a" 0]}
                {[1 := Reservation 1 "Alice" "2024-01-01"]} 1) !! 1 = Some r
    ∧ rsv_resource_id r = 1
    ∧ resources
        (Database {[1 := Resource "Room A" "a" 0]}
                  {[1 := Reservation 1 "Alice" "2024-01-01"]} 1) !! 1 = Some res
    ∧ click_remove_reservation 0
        (show_reservations_ui
           (Page (quiet (Database {[1 := Resource "Room A" "a" 0]}
                                  {[1 := Reservation 1 "Alice" "2024-01-01"]} 1)
                        []) [] [])).2
      = (Returned tt,
         Page (quiet (Database
                        (alter (Sql.set_available 1) 1
                               {[1 := Resource "Room A" "a" 0]})
                        (delete 1 {[1 := Reservation 1 "Alice" "2024-01-01"]})
                        1) []) [] ui2').
Proof.
  destruct (click_on_fresh_row_releases
              (Database {[1 := Resource "Room A" "a" 0]}
                        {[1 := Reservation 1 "Alice" "2024-01-01"]} 1)
              [] [] [] 0 1 1) as (r & res & ui2' & H1 & H2 & H3 & H4);
    [by_compute|reflexivity|].
  exists r, res, ui2'. split; [exact H1|]. split; [exact H2|].
  split; [exact H3|exact H4].
Defined.





(** X13.  In a reachable state [view_reservations] leaves no reservation
    out: each reservation of the table has its row, with the name of its
    resource. *)
Theorem view_reservations_complete_when_reachable
  (d : database) (out : list string) :
  reachable d →
  ∃ rows,
    view_reservations (quiet d out) = (Returned rows, quiet d out)
    ∧ List.length rows = size (reservations d)
    ∧ ∀ rid r, reservations d !! rid = Some r →
        ∃ res, resources d !! rsv_resource_id r = Some res
               ∧ (rid, rsv_resource_id r, rsv_user_name r, rsv_date r,
                  res_name res) ∈ rows.
Proof.
  intros [_ Hfk]%reachable_invariant.
  unfold view_reservations. rewrite sqlite_call_quiet.
  unfold Sql.select_reservations_join. eexists. split; [done|]. split.
  - rewrite <-(length_ordered_keys (reservations d)).
    generalize (λ k, proj1 (elem_of_ordered_keys (reservations d) k)).
    generalize (Sql.ordered_keys (reservations d)).
    induction l as [|k ks IH]; intros Hks; [done|]. simpl.
    destruct (Hks k) as [r Hr]; [by left|]. rewrite Hr. simpl.
    destruct (Hfk _ _ Hr) as [res Hres]. rewrite Hres. simpl.
    f_equal. apply IH. intros k' Hk'. apply Hks. by right.
  - intros rid [k u dt] Hr. destruct (Hfk _ _ Hr) as [res Hres].
    exists res. split; [done|]. simpl in *.
    apply elem_of_select_reservations_join. eauto.
Qed.

Lemma view_reservations_complete_when_reachable_witness :
  ∃ rows,
    view_reservations
      (quiet (perform (op_create_reservation 1 "Alice" "2024-01-01")
                (perform (op_add_resource "Room A" "a") empty_db)) [])
    = (Returned rows,
       quiet (perform (op_create_reservation 1 "Alice" "2024-01-01")
                (perform (op_add_resource "Room A" "a") empty_db)) [])
    ∧ List.length rows = 1%nat.
Proof.
  destruct (view_reservations_complete_when_reachable
              (perform (op_create_reservation 1 "Alice" "2024-01-01")
                 (perform (op_add_resource "Room A" "a") empty_db)) [])
    as (rows & Hrun & Hlen & _).
  - repeat apply reachable_step. apply reachable_empty.
  - exists rows. split; [exact Hrun|]. rewrite Hlen. reflexivity.
Defined.

(** X14.  Whatever the tables and the failures of the library, when
    [create_reservation] returns [True] the user name is not blank, the
    resource existed with a flag other than 0, and the tables are those of a
    completed reservation: the row has been added, the flag of the resource
    is 0, and nothing else has changed. *)
Theorem create_reservation_true_means_reserved
  (w w' : world) (resource_id : Z) (user_name date : string) :
  create_reservation resource_id user_name date w = (Returned true, w') →
  Py.blank user_name = false
  ∧ (∃ r, resources (db w) !! resource_id = Some r ∧ res_available r ≠ 0)
  ∧ db w' = reserved (db w) resource_id user_name date
  ∧ stdout w' = (stdout w ++ ["Reservation created successfully."])%list.
Proof.
  destruct w as [d pe out].
  unfold create_reservation, try_except, create_reservation_try, bind, commit,
    sqlite_call, Sql.bound, Sql.insert_reservation.
  rewrite !bind_params_cons. change (Sql.bind_params []) with (@None exception).
  destruct (Py.blank user_name) eqn:Hb.
  { apply strip_falsy_iff_blank in Hb. rewrite Hb. simpl. by intros [=]. }
  apply strip_truthy_not_blank in Hb. rewrite Hb. simpl.
  destruct (resources d !! resource_id) as [r|] eqn:Hr.
  2: { run_reservation d resource_id; by intros [=]. }
  run_reservation d resource_id; try (by intros [=]);
    intros [= <-]; simpl; eauto 10.
Qed.

Lemma create_reservation_true_means_reserved_witness :
  db (create_reservation 1 "Alice" "2024-01-01"
        (quiet (Database {[1 := Resource "Room A" "a" 1]} ∅ 0) [])).2
  = reserved (Database {[1 := Resource "Room A" "a" 1]} ∅ 0)
             1 "Alice" "2024-01-01".
Proof.
  apply (create_reservation_true_means_reserved
           (quiet (Database {[1 := Resource "Room A" "a" 1]} ∅ 0) [])
           (create_reservation 1 "Alice" "2024-01-01"
              (quiet (Database {[1 := Resource "Room A" "a" 1]} ∅ 0) [])).2
           1 "Alice" "2024-01-01").
  reflexivity.
Defined.

(** ** The resource management form *)

